(** * Session manager (session.go): a shallow embedding and its properties

    The development follows the layout of [session.go]:

    - the pieces of the Go standard library the manager calls
      ([io.ReadFull] on [crypto/rand.Reader], [encoding/base64],
      [net/url] query escaping, the cookie and header accessors of
      [net/http]);
    - the [Provider] and [Session] interfaces and the provider registry
      [provides] with [Register] and [NewManager];
    - the [Manager] operations, written in a small monad of commands whose
      sequential interpreter threads the random source, the provider store,
      the manager's mutex, the [Set-Cookie] lines of the response and a
      trace of effects;
    - an interleaving semantics of several calls on one manager;
    - both again with provider calls that may never return;
    - the properties. *)

From Stdlib Require Import ZArith Lia Bool List Strings.Ascii Strings.String Strings.Byte.
From Stdlib Require Import DecimalString.
From stdpp Require Import gmap strings list.

Local Open Scope Z_scope.
Local Open Scope string_scope.

(* ===================================================================== *)
(** * Bytes and characters *)
(* ===================================================================== *)

(** A Go [string] is a sequence of bytes: [string] over [ascii].  A Go
    [[]byte] is a [list byte].  Arithmetic on a byte is done in [Z]. *)

Definition Z_of_ascii (c : ascii) : Z := Z.of_N (N_of_ascii c).
Definition ascii_of_Z (z : Z) : ascii := ascii_of_N (Z.to_N (z mod 256)).

Definition Z_of_byte (b : byte) : Z := Z.of_N (Byte.to_N b).

(** Go's conversion [byte(v)] keeps the low eight bits. *)
Definition byte_of_Z (z : Z) : byte :=
  match Byte.of_N (Z.to_N (Z.land z 255)) with
  | Some b => b
  | None => x00
  end.

Fixpoint string_forall (P : ascii -> bool) (s : string) : bool :=
  match s with
  | EmptyString => true
  | String c s' => P c && string_forall P s'
  end.

Fixpoint string_exists (P : ascii -> bool) (s : string) : bool :=
  match s with
  | EmptyString => false
  | String c s' => P c || string_exists P s'
  end.

Fixpoint string_filter (P : ascii -> bool) (s : string) : string :=
  match s with
  | EmptyString => EmptyString
  | String c s' => if P c then String c (string_filter P s') else string_filter P s'
  end.

(* ===================================================================== *)
(** * encoding/base64: [URLEncoding] *)
(* ===================================================================== *)

Module base64.

(** [encodeURL], the alphabet of [base64.URLEncoding]; the padding
    character is [StdPadding], ['=']. *)
Definition encodeURL : string :=
  "ABCDEFGHIJKLMNOPQRSTUVWXYZabcdefghijklmnopqrstuvwxyz0123456789-_".

Definition StdPadding : ascii := "="%char.

(** [enc.encode[i]] *)
Definition encode (i : Z) : ascii :=
  match String.get (Z.to_nat i) encodeURL with
  | Some c => c
  | None => "000"%char
  end.

(** [enc.decodeMap[c]]: the index of [c] in the alphabet, [0xFF] for a byte
    outside it. *)
Fixpoint index_from (c : ascii) (s : string) (i : Z) : Z :=
  match s with
  | EmptyString => 255
  | String d s' => if Ascii.eqb c d then i else index_from c s' (i + 1)
  end.

Definition decodeMap (c : ascii) : Z := index_from c encodeURL 0.

(** The 24-bit group of a full quantum, [src[0]<<16 | src[1]<<8 | src[2]]. *)
Definition group (a b c : Z) : Z :=
  Z.lor (Z.lor (Z.shiftl a 16) (Z.shiftl b 8)) c.

(** [val>>k & 0x3F] *)
Definition sextet (val k : Z) : Z := Z.land (Z.shiftr val k) 63.

(** [EncodeToString]: three bytes give four characters; a remainder of one
    or two bytes gives two or three characters and padding. *)
Fixpoint EncodeToString (src : list byte) : string :=
  match src with
  | [] => ""
  | [a] =>
      let val := group (Z_of_byte a) 0 0 in
      String (encode (sextet val 18)) (String (encode (sextet val 12))
        (String StdPadding (String StdPadding "")))
  | [a; b] =>
      let val := group (Z_of_byte a) (Z_of_byte b) 0 in
      String (encode (sextet val 18)) (String (encode (sextet val 12))
        (String (encode (sextet val 6)) (String StdPadding "")))
  | a :: b :: c :: rest =>
      let val := group (Z_of_byte a) (Z_of_byte b) (Z_of_byte c) in
      String (encode (sextet val 18)) (String (encode (sextet val 12))
        (String (encode (sextet val 6)) (String (encode (sextet val 0))
          (EncodeToString rest))))
  end.

(** The value rebuilt by the decoder from four sextets,
    [d0<<18 | d1<<12 | d2<<6 | d3]. *)
Definition regroup (d0 d1 d2 d3 : Z) : Z :=
  Z.lor (Z.lor (Z.lor (Z.shiftl d0 18) (Z.shiftl d1 12)) (Z.shiftl d2 6)) d3.

Definition valid (c : ascii) : bool := negb (Z.eqb (decodeMap c) 255).

Definition is_newline (c : ascii) : bool :=
  Ascii.eqb c "010"%char || Ascii.eqb c "013"%char.

(** Decoding of the quanta of an input without line breaks.  A quantum is

    - four alphabet characters (three bytes), or
    - at the very end, two characters and two paddings (one byte), or
      three characters and one padding (two bytes).

    Anything else is a [CorruptInputError], here [None]. *)
Fixpoint decode_quanta (s : string) : option (list byte) :=
  match s with
  | EmptyString => Some []
  | String c0 (String c1 (String c2 (String c3 rest))) =>
      if valid c0 && valid c1 then
        if valid c2 then
          if valid c3 then
            let val := regroup (decodeMap c0) (decodeMap c1)
                               (decodeMap c2) (decodeMap c3) in
            match decode_quanta rest with
            | Some out =>
                Some (byte_of_Z (Z.shiftr val 16) :: byte_of_Z (Z.shiftr val 8)
                        :: byte_of_Z val :: out)
            | None => None
            end
          else if Ascii.eqb c3 StdPadding then
            match rest with
            | EmptyString =>
                let val := regroup (decodeMap c0) (decodeMap c1) (decodeMap c2) 0 in
                Some [byte_of_Z (Z.shiftr val 16); byte_of_Z (Z.shiftr val 8)]
            | _ => None
            end
          else None
        else if Ascii.eqb c2 StdPadding && Ascii.eqb c3 StdPadding then
          match rest with
          | EmptyString =>
              let val := regroup (decodeMap c0) (decodeMap c1) 0 0 in
              Some [byte_of_Z (Z.shiftr val 16)]
          | _ => None
          end
        else None
      else None
  | _ => None
  end.

Fixpoint strip_newlines (s : string) : string :=
  match s with
  | EmptyString => EmptyString
  | String c s' =>
      if is_newline c then strip_newlines s' else String c (strip_newlines s')
  end.

(** [DecodeString]: carriage returns and line feeds are skipped. *)
Definition DecodeString (s : string) : option (list byte) :=
  decode_quanta (strip_newlines s).

(** A character of the URL-safe alphabet, or the padding. *)
Definition url_safe (c : ascii) : bool := valid c || Ascii.eqb c StdPadding.

End base64.

(* ===================================================================== *)
(** * Errors *)
(* ===================================================================== *)

(** Go's [error] values met by the manager.  A nil error is [None] of
    [option error]. *)
Inductive error : Type :=
| EOF
| ErrUnexpectedEOF
| ErrReader                                   (* a failing [Read] of the random source *)
| EscapeError (s : string)                    (* net/url *)
| ErrNoCookie                                 (* net/http *)
| Errorf (format : string) (args : list string) (* fmt.Errorf *)
| errors_New (msg : string).                  (* any error of a provider *)

(* ===================================================================== *)
(** * crypto/rand and io *)
(* ===================================================================== *)

Module rand.

(** The state of [rand.Reader]: what its future reads deliver, byte by
    byte.  [Some b] is a byte, [None] a read that fails; an empty list is a
    source that has nothing left. *)
Definition Reader : Type := list (option byte).

End rand.

Module io.

(** [io.ReadFull(rand.Reader, b)] with [len(b) = n]: the bytes read and the
    error ([EOF] when nothing was read, [ErrUnexpectedEOF] after a partial
    read, the reader's own error when a read fails), and the reader
    afterwards. *)
Fixpoint read_full (started : bool) (n : nat) (r : rand.Reader)
  : (list byte * option error) * rand.Reader :=
  match n with
  | O => (([], None), r)
  | S n' =>
      match r with
      | [] => (([], Some (if started then ErrUnexpectedEOF else EOF)), [])
      | None :: r' => (([], Some ErrReader), r')
      | Some b :: r' =>
          let '((bs, err), r'') := read_full true n' r' in
          ((b :: bs, err), r'')
      end
  end.

Definition ReadFull (n : nat) (r : rand.Reader) := read_full false n r.

End io.

(* ===================================================================== *)
(** * net/url: query escaping *)
(* ===================================================================== *)

Module url.

Definition between (lo hi c : ascii) : bool :=
  (Z_of_ascii lo <=? Z_of_ascii c)%Z && (Z_of_ascii c <=? Z_of_ascii hi)%Z.

(** [shouldEscape(c, encodeQueryComponent)]: everything but the unreserved
    characters of RFC 3986 is escaped. *)
Definition shouldEscape (c : ascii) : bool :=
  if between "a" "z" c || between "A" "Z" c || between "0" "9" c then false
  else if Ascii.eqb c "-" || Ascii.eqb c "_" || Ascii.eqb c "." || Ascii.eqb c "~"
       then false
       else true.

Definition upperhex : string := "0123456789ABCDEF".

Definition hexdigit (i : Z) : ascii :=
  match String.get (Z.to_nat i) upperhex with
  | Some c => c
  | None => "000"%char
  end.

(** [QueryEscape]: a space becomes ['+'], any other escaped byte [%XX]. *)
Fixpoint QueryEscape (s : string) : string :=
  match s with
  | EmptyString => EmptyString
  | String c s' =>
      if shouldEscape c then
        if Ascii.eqb c " " then String "+" (QueryEscape s')
        else String "%" (String (hexdigit (Z.shiftr (Z_of_ascii c) 4))
                           (String (hexdigit (Z.land (Z_of_ascii c) 15))
                              (QueryEscape s')))
      else String c (QueryEscape s')
  end.

Definition ishex (c : ascii) : bool :=
  between "0" "9" c || between "a" "f" c || between "A" "F" c.

Definition unhex (c : ascii) : Z :=
  if between "0" "9" c then Z_of_ascii c - Z_of_ascii "0"
  else if between "a" "f" c then Z_of_ascii c - Z_of_ascii "a" + 10
  else if between "A" "F" c then Z_of_ascii c - Z_of_ascii "A" + 10
  else 0.

(** First pass of [unescape]: the offending fragment (at most three bytes
    from the bad ['%'] on) of a malformed escape, if there is one. *)
Fixpoint malformed (s : string) : option string :=
  match s with
  | EmptyString => None
  | String c rest =>
      if Ascii.eqb c "%" then
        match rest with
        | String h1 (String h2 rest') =>
            if ishex h1 && ishex h2 then malformed rest'
            else Some (String c (String h1 (String h2 EmptyString)))
        | _ => Some s
        end
      else malformed rest
  end.

(** Second pass: [%XX] is the byte [unhex(X)<<4 | unhex(X)], ['+'] a space. *)
Fixpoint decode (s : string) : string :=
  match s with
  | EmptyString => EmptyString
  | String c rest =>
      if Ascii.eqb c "%" then
        match rest with
        | String h1 (String h2 rest') =>
            String (ascii_of_Z (Z.lor (Z.shiftl (unhex h1) 4) (unhex h2)))
                   (decode rest')
        | _ => EmptyString
        end
      else if Ascii.eqb c "+" then String " " (decode rest)
      else String c (decode rest)
  end.

(** The check that escaping a byte and reading the escape back gives the
    byte, and that a byte left alone is neither ['%'] nor ['+']. *)
Definition escape_ok (c : ascii) : bool :=
  if shouldEscape c then
    ishex (hexdigit (Z.shiftr (Z_of_ascii c) 4)) &&
    ishex (hexdigit (Z.land (Z_of_ascii c) 15)) &&
    Ascii.eqb
      (ascii_of_Z (Z.lor (Z.shiftl (unhex (hexdigit (Z.shiftr (Z_of_ascii c) 4))) 4)
                         (unhex (hexdigit (Z.land (Z_of_ascii c) 15)))))
      c
  else negb (Ascii.eqb c "%") && negb (Ascii.eqb c "+").

(** [QueryUnescape]: on a malformed escape the result is the empty string
    and an [EscapeError]. *)
Definition QueryUnescape (s : string) : string * option error :=
  match malformed s with
  | Some frag => ("", Some (EscapeError frag))
  | None => (decode s, None)
  end.

End url.

(* ===================================================================== *)
(** * net/http: cookies and headers *)
(* ===================================================================== *)

Module http.

(** The fields of [http.Cookie] the manager sets or reads. *)
Record Cookie : Type := mkCookie {
  Name : string;
  Value : string;
  Path : string;
  HttpOnly : bool;
  MaxAge : Z;
}.

(** A request: its parsed cookies, in the order of the [Cookie] header, and
    its header map. *)
Record Request : Type := mkRequest {
  Cookies : list Cookie;
  Header : gmap string (list string);
}.

(** [r.Cookie(name)]: the first cookie of that name, or [ErrNoCookie]. *)
Definition Request_Cookie (r : Request) (name : string)
  : option Cookie * option error :=
  if String.eqb name "" then (None, Some ErrNoCookie)
  else match List.find (fun c => String.eqb (Name c) name) (Cookies r) with
       | Some c => (Some c, None)
       | None => (None, Some ErrNoCookie)
       end.

(** [h.Get(key)]: the first value of the key, or the empty string. *)
Definition Header_Get (h : gmap string (list string)) (key : string) : string :=
  match h !! key with
  | Some (v :: _) => v
  | _ => ""
  end.

(** [httpguts.IsTokenRune]: the characters of an HTTP token. *)
Definition isTokenRune (c : ascii) : bool :=
  url.between "a" "z" c || url.between "A" "Z" c || url.between "0" "9" c ||
  string_exists (Ascii.eqb c) "!#$%&'*+-.^_`|~".

(** [isCookieNameValid]: a name is a non-empty token. *)
Definition isCookieNameValid (raw : string) : bool :=
  negb (String.eqb raw "") && string_forall isTokenRune raw.

Definition dquote : ascii := "034"%char.

Definition validCookieValueByte (b : ascii) : bool :=
  (32 <=? Z_of_ascii b)%Z && (Z_of_ascii b <? 127)%Z &&
  negb (Ascii.eqb b dquote) && negb (Ascii.eqb b ";") && negb (Ascii.eqb b "\").

Definition validCookiePathByte (b : ascii) : bool :=
  (32 <=? Z_of_ascii b)%Z && (Z_of_ascii b <? 127)%Z && negb (Ascii.eqb b ";").

(** [sanitizeOrWarn]: the bytes that are not valid are dropped. *)
Definition sanitizeOrWarn (valid : ascii -> bool) (v : string) : string :=
  string_filter valid v.

(** [sanitizeCookieValue(v, false)]: a value with a space or a comma is put
    between double quotes. *)
Definition sanitizeCookieValue (v : string) : string :=
  let v := sanitizeOrWarn validCookieValueByte v in
  if string_exists (fun c => Ascii.eqb c " " || Ascii.eqb c ",") v
  then String dquote (v ++ String dquote "")
  else v.

Definition sanitizeCookiePath (v : string) : string :=
  sanitizeOrWarn validCookiePathByte v.

(** [strconv.AppendInt(buf, n, 10)] *)
Definition itoa (n : Z) : string := NilZero.string_of_int (Z.to_int n).

(** The [Max-Age] attribute of [Cookie.String]: the number of seconds when
    [MaxAge] is positive, [0] when it is negative, no attribute when it is
    zero. *)
Definition MaxAge_attribute (maxAge : Z) : string :=
  if (0 <? maxAge)%Z then "; Max-Age=" ++ itoa maxAge
  else if (maxAge <? 0)%Z then "; Max-Age=0"
  else "".

(** [c.String()], the serialization of a cookie for a [Set-Cookie] header
    as [net/http] does it today, for the fields above (the others have
    their zero value and add nothing): the empty string when the name is
    not valid. *)
Definition Cookie_String (c : Cookie) : string :=
  if negb (isCookieNameValid (Name c)) then ""
  else
    Name c ++ "=" ++ sanitizeCookieValue (Value c)
      ++ (if String.eqb (Path c) "" then "" else "; Path=" ++ sanitizeCookiePath (Path c))
      ++ MaxAge_attribute (MaxAge c)
      ++ (if HttpOnly c then "; HttpOnly" else "").

(** The response is observed through the values of its [Set-Cookie] header
    lines, oldest first. *)
Definition ResponseWriter : Type := list string.

(** [http.SetCookie(w, cookie)]: the serialization is added to the header,
    unless it is empty. *)
Definition SetCookie (w : ResponseWriter) (cookie : Cookie) : ResponseWriter :=
  let v := Cookie_String cookie in
  if String.eqb v "" then w else (w ++ [v])%list.

(** A byte that [Cookie.String] writes as it is in a value: valid, and
    neither a space nor a comma. *)
Definition plain (c : ascii) : bool :=
  validCookieValueByte c && negb (Ascii.eqb c " " || Ascii.eqb c ",").

(** The check that the query-escaped form of a byte is made of such
    bytes. *)
Definition escape_plain (c : ascii) : bool :=
  string_forall plain (url.QueryEscape (String c "")).

(** The [Set-Cookie] line of the cookies the manager makes, with path
    ["/"] and [HttpOnly]: what [Cookie.String] gives for them when the name
    is valid. *)
Definition session_line (name sid : string) (maxAge : Z) : string :=
  name ++ "=" ++ url.QueryEscape sid ++ "; Path=/" ++ MaxAge_attribute maxAge
       ++ "; HttpOnly".

End http.

(* ===================================================================== *)
(** * Integers *)
(* ===================================================================== *)

(** [int64] values are integers of [[-2^63, 2^63)]; [int] is the 64-bit
    [int] of the platform; a conversion wraps around. *)
Definition wrap (bits : Z) (x : Z) : Z :=
  (x + 2 ^ (bits - 1)) mod 2 ^ bits - 2 ^ (bits - 1).

Definition int64_range (x : Z) : Prop := - 2 ^ 63 <= x < 2 ^ 63.

Definition int_of_int64 (x : Z) : Z := wrap 64 x.

(* ===================================================================== *)
(** * Logging (seelog) *)
(* ===================================================================== *)

Module log.

Inductive Level : Type := DebugLvl | InfoLvl | ErrorLvl.

(** The arguments of a call: [Debug(v...)] prints its operands,
    [Debugf(format, params...)] formats them. *)
Inductive Message : Type :=
| Sprint (v : list string)
| Sprintf (format : string) (params : list string).

Definition Entry : Type := (Level * Message)%type.

Definition Debug (v : list string) : Entry := (DebugLvl, Sprint v).
Definition Debugf (format : string) (params : list string) : Entry :=
  (DebugLvl, Sprintf format params).
Definition Info (v : list string) : Entry := (InfoLvl, Sprint v).
Definition Error (v : list string) : Entry := (ErrorLvl, Sprint v).
Definition Errorf (format : string) (params : list string) : Entry :=
  (ErrorLvl, Sprintf format params).

End log.

(* ===================================================================== *)
(** * The [Session] and [Provider] interfaces *)
(* ===================================================================== *)

(** [Sess] is the type of (non-nil) session values, [Store] the state the
    providers keep, [Val] the type of keys and values ([interface{}]).  A nil
    [Session] is [None] of [option Sess]. *)
Class Session (Sess Store Val : Type) : Type := {
  Set_ : Sess -> Val -> Val -> Store -> option error * Store;
  Get : Sess -> Val -> Store -> option Val;
  Delete : Sess -> Val -> Store -> option error * Store;
  SessionID : Sess -> string;
}.

(** A [Provider] value is the table of its methods; they act on the
    store.  As functions they return whenever they are called: a method
    that never returns is not a [Provider] value of this type, it is what
    [exec_hang] and [step_call_hang] below add. *)
Record Provider (Sess Store : Type) : Type := mkProvider {
  SessionInit : string -> Store -> (option Sess * option error) * Store;
  SessionRead : string -> Store -> (option Sess * option error) * Store;
  SessionDestroy : string -> Store -> option error * Store;
  SessionGC : Z -> Store -> Store;
}.

Arguments mkProvider {Sess Store}.
Arguments SessionInit {Sess Store}.
Arguments SessionRead {Sess Store}.
Arguments SessionDestroy {Sess Store}.
Arguments SessionGC {Sess Store}.

(** What a call gives back: a result; a panic, which runs the deferred
    calls on its way up; a fatal error of the runtime, which runs nothing;
    or nothing at all, because the call waits for a mutex that is never
    released. *)
Inductive Outcome (A : Type) : Type :=
| Returned (a : A)
| Panicked (msg : string)
| Fatal (msg : string)
| Blocked.

Arguments Returned {A}.
Arguments Panicked {A}.
Arguments Fatal {A}.
Arguments Blocked {A}.

(** What is left of the outcome of a body once a deferred call has run. *)
Definition after_defer {A : Type} (body : Outcome A) (d : Outcome unit) : Outcome A :=
  match d with
  | Returned _ => body
  | Panicked msg => Panicked msg
  | Fatal msg => Fatal msg
  | Blocked => Blocked
  end.

(* ===================================================================== *)
(** * The provider registry *)
(* ===================================================================== *)

Section Registry.
Context {Sess Store : Type}.

(** [var provides = make(map[string]Provider)].  [Register] is its only
    writer and refuses nil, so the map holds providers proper. *)
Definition Register (name : string) (provider : option (Provider Sess Store))
    (provides : gmap string (Provider Sess Store))
  : Outcome unit * gmap string (Provider Sess Store) :=
  match provider with
  | None => (Panicked "session: register provider is nil", provides)
  | Some p =>
      match provides !! name with
      | Some _ =>
          (Panicked ("session: Register called twice for provider" ++ name),
           provides)
      | None => (Returned tt, <[name := p]> provides)
      end
  end.

(** The [Manager] struct.  Its mutable field [lock] lives in the [World]
    below. *)
Record Manager : Type := mkManager {
  cookieName : string;
  provider : Provider Sess Store;
  maxlifetime : Z;
}.

(** [NewManager]: the pair of results and the log lines written. *)
Definition NewManager (provides : gmap string (Provider Sess Store))
    (provideName cookieName : string) (maxlifetime : Z)
  : (option Manager * option error) * list log.Entry :=
  match provides !! provideName with
  | None =>
      ((None,
        Some (Errorf "session: unknown provide %q (forgotten import?)"
                     [provideName])),
       [log.Info ["new session manager"];
        log.Error ["no valid provider ,error"]])
  | Some provider =>
      ((Some (mkManager cookieName provider maxlifetime), None),
       [log.Info ["new session manager"]])
  end.

End Registry.

Arguments Manager : clear implicits.

(* ===================================================================== *)
(** * Commands of a manager call *)
(* ===================================================================== *)

Section Commands.
Context {Sess Store : Type}.

(** The effects of a lifecycle call, in the order the code performs them;
    the continuation receives what the effect returns. *)
Inductive Prog (A : Type) : Type :=
| Ret (a : A)
| Panic (msg : string)
| Lock (k : Prog A)                                   (* manager.lock.Lock() *)
| Unlock (k : Prog A)                                 (* manager.lock.Unlock() *)
| ReadRandom (n : nat) (k : list byte * option error -> Prog A)
                                                      (* io.ReadFull(rand.Reader, b) *)
| Init (p : Provider Sess Store) (sid : string)
       (k : option Sess * option error -> Prog A)     (* provider.SessionInit(sid) *)
| Read (p : Provider Sess Store) (sid : string)
       (k : option Sess * option error -> Prog A)     (* provider.SessionRead(sid) *)
| Destroy (p : Provider Sess Store) (sid : string)
          (k : option error -> Prog A)                (* provider.SessionDestroy(sid) *)
| SetCookie (c : http.Cookie) (k : Prog A)            (* http.SetCookie(w, &c) *)
| Log (e : log.Entry) (k : Prog A).

Arguments Ret {A}.
Arguments Panic {A}.
Arguments Lock {A}.
Arguments Unlock {A}.
Arguments ReadRandom {A}.
Arguments Init {A}.
Arguments Read {A}.
Arguments Destroy {A}.
Arguments SetCookie {A}.
Arguments Log {A}.

Fixpoint bind {A B : Type} (p : Prog A) (f : A -> Prog B) : Prog B :=
  match p with
  | Ret a => f a
  | Panic msg => Panic msg
  | Lock k => Lock (bind k f)
  | Unlock k => Unlock (bind k f)
  | ReadRandom n k => ReadRandom n (fun x => bind (k x) f)
  | Init p sid k => Init p sid (fun x => bind (k x) f)
  | Read p sid k => Read p sid (fun x => bind (k x) f)
  | Destroy p sid k => Destroy p sid (fun x => bind (k x) f)
  | SetCookie c k => SetCookie c (bind k f)
  | Log e k => Log e (bind k f)
  end.

(** [defer d; body]: [d] runs when [body] returns and when it panics. *)
Fixpoint defer {A : Type} (d : Prog unit) (body : Prog A) : Prog A :=
  match body with
  | Ret a => bind d (fun _ => Ret a)
  | Panic msg => bind d (fun _ => Panic msg)
  | Lock k => Lock (defer d k)
  | Unlock k => Unlock (defer d k)
  | ReadRandom n k => ReadRandom n (fun x => defer d (k x))
  | Init p sid k => Init p sid (fun x => defer d (k x))
  | Read p sid k => Read p sid (fun x => defer d (k x))
  | Destroy p sid k => Destroy p sid (fun x => defer d (k x))
  | SetCookie c k => SetCookie c (defer d k)
  | Log e k => Log e (defer d k)
  end.

End Commands.

Arguments Prog : clear implicits.
Arguments Ret {Sess Store A}.
Arguments Panic {Sess Store A}.
Arguments Lock {Sess Store A}.
Arguments Unlock {Sess Store A}.
Arguments ReadRandom {Sess Store A}.
Arguments Init {Sess Store A}.
Arguments Read {Sess Store A}.
Arguments Destroy {Sess Store A}.
Arguments SetCookie {Sess Store A}.
Arguments Log {Sess Store A}.

#[global] Instance Prog_ret {Sess Store} : MRet (Prog Sess Store) :=
  fun A a => Ret a.
#[global] Instance Prog_bind {Sess Store} : MBind (Prog Sess Store) :=
  fun A B f p => bind p f.

(* ===================================================================== *)
(** * The world of one manager and the execution of a call *)
(* ===================================================================== *)

(** What happened, for the trace. *)
Inductive Effect : Type :=
| EvLock
| EvUnlock
| EvReadFull (n : nat) (err : option error)
| EvSessionInit (sid : string)
| EvSessionRead (sid : string)
| EvSessionDestroy (sid : string)
| EvSetCookie (c : http.Cookie)
| EvLog (e : log.Entry).

(** The state the calls on one manager share: the random source, the
    store of the providers, the manager's mutex (the call that holds it, if
    any) and the trace of effects, each with the number of the call that
    performed it. *)
Record World (Store : Type) : Type := mkWorld {
  Reader : rand.Reader;
  store : Store;
  lock : option nat;
  trace : list (nat * Effect);
}.

Arguments mkWorld {Store}.
Arguments Reader {Store}.
Arguments store {Store}.
Arguments lock {Store}.
Arguments trace {Store}.

Section Execution.
Context {Sess Store : Type}.

Definition emit (i : nat) (e : Effect) (σ : World Store) : World Store :=
  mkWorld (Reader σ) (store σ) (lock σ) (trace σ ++ [(i, e)]).

Definition set_lock (l : option nat) (σ : World Store) : World Store :=
  mkWorld (Reader σ) (store σ) l (trace σ).

(** [Lock] of a free mutex takes it; of a held one, waits. *)
Definition do_lock (i : nat) (σ : World Store) : option (World Store) :=
  match lock σ with
  | None => Some (emit i EvLock (set_lock (Some i) σ))
  | Some _ => None
  end.

(** [Unlock] of a held mutex frees it; of a free one, is a fatal error. *)
Definition do_unlock (i : nat) (σ : World Store) : option (World Store) :=
  match lock σ with
  | Some _ => Some (emit i EvUnlock (set_lock None σ))
  | None => None
  end.

Definition do_read (i : nat) (n : nat) (σ : World Store)
  : (list byte * option error) * World Store :=
  let '(res, r') := io.ReadFull n (Reader σ) in
  (res, emit i (EvReadFull n (snd res))
          (mkWorld r' (store σ) (lock σ) (trace σ))).

(** A provider method [f] applied to the store. *)
Definition do_call {X : Type} (i : nat) (e : Effect)
    (f : Store -> X * Store) (σ : World Store) : X * World Store :=
  let '(x, st') := f (store σ) in
  (x, emit i e (mkWorld (Reader σ) st' (lock σ) (trace σ))).

Definition unlock_of_unlocked : string := "sync: unlock of unlocked mutex".

(** Execution of call number [i] on its own: the outcome, the world and the
    response afterwards. *)
Fixpoint exec {A : Type} (i : nat) (p : Prog Sess Store A)
    (σ : World Store) (w : http.ResponseWriter)
  : Outcome A * World Store * http.ResponseWriter :=
  match p with
  | Ret a => (Returned a, σ, w)
  | Panic msg => (Panicked msg, σ, w)
  | Lock k =>
      match do_lock i σ with
      | Some σ' => exec i k σ' w
      | None => (Blocked, σ, w)
      end
  | Unlock k =>
      match do_unlock i σ with
      | Some σ' => exec i k σ' w
      | None => (Fatal unlock_of_unlocked, σ, w)
      end
  | ReadRandom n k =>
      let '(res, σ') := do_read i n σ in exec i (k res) σ' w
  | Init p sid k =>
      let '(res, σ') := do_call i (EvSessionInit sid) (SessionInit p sid) σ in
      exec i (k res) σ' w
  | Read p sid k =>
      let '(res, σ') := do_call i (EvSessionRead sid) (SessionRead p sid) σ in
      exec i (k res) σ' w
  | Destroy p sid k =>
      let '(res, σ') := do_call i (EvSessionDestroy sid) (SessionDestroy p sid) σ in
      exec i (k res) σ' w
  | SetCookie c k => exec i k (emit i (EvSetCookie c) σ) (http.SetCookie w c)
  | Log e k => exec i k (emit i (EvLog e) σ) w
  end.

(** A call run alone is call number [0]. *)
Definition run {A : Type} (p : Prog Sess Store A) (σ : World Store)
    (w : http.ResponseWriter) :=
  exec 0%nat p σ w.

End Execution.

(* ===================================================================== *)
(** * The manager's operations *)
(* ===================================================================== *)

Section ManagerOps.
Context {Sess Store Val : Type} `{!Session Sess Store Val}.

Abbreviation Prog := (Prog Sess Store).
Abbreviation Manager := (Manager Sess Store).

Definition lock_Lock : Prog unit := Lock (Ret tt).
Definition lock_Unlock : Prog unit := Unlock (Ret tt).
Definition io_ReadFull (n : nat) : Prog (list byte * option error) :=
  ReadRandom n Ret.
Definition provider_SessionInit (p : Provider Sess Store) (sid : string)
  : Prog (option Sess * option error) := Init p sid Ret.
Definition provider_SessionRead (p : Provider Sess Store) (sid : string)
  : Prog (option Sess * option error) := Read p sid Ret.
Definition provider_SessionDestroy (p : Provider Sess Store) (sid : string)
  : Prog (option error) := Destroy p sid Ret.
Definition http_SetCookie (c : http.Cookie) : Prog unit := SetCookie c (Ret tt).
Definition log_ (e : log.Entry) : Prog unit := Log e (Ret tt).

Definition newline : string := String "010"%char "".

Definition nil_dereference : string :=
  "runtime error: invalid memory address or nil pointer dereference".

(** [sessionId]: 32 bytes of [rand.Reader], base64-encoded; the empty
    string when the read fails. *)
Definition sessionId (manager : Manager) : Prog string :=
  '(b, err) ← io_ReadFull 32;
  match err with
  | Some _ => mret ""
  | None => mret (base64.EncodeToString b)
  end.

(** The identifier [sessionId] computes from a state of the random
    source. *)
Definition identifier (r : rand.Reader) : string :=
  match io.ReadFull 32 r with
  | ((b, None), _) => base64.EncodeToString b
  | ((_, Some _), _) => ""
  end.

Definition SessionStart (manager : Manager) (r : http.Request)
  : Prog (option Sess) :=
  lock_Lock;;
  defer lock_Unlock (
    let create : Prog (option Sess) :=
      log_ (log.Debug ["no valid session id in request cookie, create one"]);;
      sid ← sessionId manager;
      log_ (log.Debug ["new created sid is "; sid]);;
      '(session, _) ← provider_SessionInit (provider manager) sid;
      let cookie :=
        http.mkCookie (cookieName manager) (url.QueryEscape sid) "/" true
                      (int_of_int64 (maxlifetime manager)) in
      http_SetCookie cookie;;
      mret session in
    let '(cookie, err) := http.Request_Cookie r (cookieName manager) in
    match err, cookie with
    | Some _, _ => create
    | None, None => Panic nil_dereference
    | None, Some cookie =>
        if String.eqb (http.Value cookie) "" then create
        else
          let '(sid, _) := url.QueryUnescape (http.Value cookie) in
          log_ (log.Debugf ("get valid session id  %s in request cookie %s" ++ newline)
                           [sid; cookieName manager]);;
          '(session, _) ← provider_SessionRead (provider manager) sid;
          mret session
    end).

Definition SessionEnd (manager : Manager) (s : option Sess) : Prog unit :=
  lock_Lock;;
  defer lock_Unlock (
    match s with
    | None => Panic nil_dereference
    | Some s =>
        let sid := SessionID s in
        let cookie :=
          http.mkCookie (cookieName manager) (url.QueryEscape sid) "/" true (-1) in
        http_SetCookie cookie;;
        log_ (log.Debugf ("destroy session for id %s " ++ newline) [sid]);;
        err ← provider_SessionDestroy (provider manager) sid;
        match err with
        | Some _ =>
            log_ (log.Errorf ("destroy session for id %s failed" ++ newline) [sid])
        | None => mret tt
        end
    end).

Definition ApiSessionCreate (manager : Manager) : Prog (option Sess) :=
  lock_Lock;;
  defer lock_Unlock (
    sid ← sessionId manager;
    log_ (log.Debug ["new created sid is "; sid]);;
    '(session, _) ← provider_SessionInit (provider manager) sid;
    mret session).

Definition ApiSessionStart (manager : Manager) (r : http.Request)
  : Prog (option Sess) :=
  let sid := http.Header_Get (http.Header r) "X-Session-Token" in
  log_ (log.Debugf "get session token is %s" [sid]);;
  let '(sid, _) := url.QueryUnescape sid in
  if String.eqb sid "" then
    log_ (log.Debug ["no valid session id in request, create one"]);;
    session ← ApiSessionCreate manager;
    mret session
  else
    lock_Lock;;
    defer lock_Unlock (
      '(session, _) ← provider_SessionRead (provider manager) sid;
      mret session).

Definition ApiSessionEnd (manager : Manager) (session : option Sess) : Prog unit :=
  lock_Lock;;
  defer lock_Unlock (
    match session with
    | None => Panic nil_dereference
    | Some s =>
        let sid := SessionID s in
        log_ (log.Debugf ("destroy session for id %s " ++ newline) [sid]);;
        err ← provider_SessionDestroy (provider manager) sid;
        match err with
        | Some _ =>
            log_ (log.Errorf ("destroy session for id %s failed" ++ newline) [sid])
        | None => mret tt
        end
    end).

End ManagerOps.

(** The two lines [ApiSessionStart] logs before it creates a session. *)
Definition token_logs (r : http.Request) : list (nat * Effect) :=
  [(0%nat, EvLog (log.Debugf "get session token is %s"
                             [http.Header_Get (http.Header r) "X-Session-Token"]));
   (0%nat, EvLog (log.Debug ["no valid session id in request, create one"]))].

(* ===================================================================== *)
(** * Several calls on one manager *)
(* ===================================================================== *)

Section Interleaving.
Context {Sess Store : Type}.

(** A call in progress: what is left of its code, and its response. *)
Record Thread : Type := mkThread {
  result : Type;
  code : Prog Sess Store result;
  resp : http.ResponseWriter;
}.

(** One effect of call [i], when it can make one: a finished call and a
    call waiting for the mutex make none, and the unlock of a free mutex
    stops the process. *)
Definition step_call (i : nat) (t : Thread) (σ : World Store)
  : option (Thread * World Store) :=
  match code t with
  | Ret _ | Panic _ => None
  | Lock k =>
      match do_lock i σ with
      | Some σ' => Some (mkThread (result t) k (resp t), σ')
      | None => None
      end
  | Unlock k =>
      match do_unlock i σ with
      | Some σ' => Some (mkThread (result t) k (resp t), σ')
      | None => None
      end
  | ReadRandom n k =>
      let '(res, σ') := do_read i n σ in
      Some (mkThread (result t) (k res) (resp t), σ')
  | Init p sid k =>
      let '(res, σ') := do_call i (EvSessionInit sid) (SessionInit p sid) σ in
      Some (mkThread (result t) (k res) (resp t), σ')
  | Read p sid k =>
      let '(res, σ') := do_call i (EvSessionRead sid) (SessionRead p sid) σ in
      Some (mkThread (result t) (k res) (resp t), σ')
  | Destroy p sid k =>
      let '(res, σ') := do_call i (EvSessionDestroy sid) (SessionDestroy p sid) σ in
      Some (mkThread (result t) (k res) (resp t), σ')
  | SetCookie c k =>
      Some (mkThread (result t) k (http.SetCookie (resp t) c),
            emit i (EvSetCookie c) σ)
  | Log e k => Some (mkThread (result t) k (resp t), emit i (EvLog e) σ)
  end.

(** The scheduler picks any call that can move. *)
Inductive step : list Thread * World Store -> list Thread * World Store -> Prop :=
| step_at (i : nat) (ts : list Thread) (σ : World Store) (t t' : Thread)
    (σ' : World Store) :
    ts !! i = Some t ->
    step_call i t σ = Some (t', σ') ->
    step (ts, σ) (<[i := t']> ts, σ').

Inductive steps : list Thread * World Store -> list Thread * World Store -> Prop :=
| steps_refl (c : list Thread * World Store) : steps c c
| steps_step (c1 c2 c3 : list Thread * World Store) :
    steps c1 c2 -> step c2 c3 -> steps c1 c3.

(** A schedule, the list of the calls that move in turn, run from a
    configuration; [None] when the chosen call cannot move. *)
Fixpoint schedule (sched : list nat) (c : list Thread * World Store)
  : option (list Thread * World Store) :=
  match sched with
  | [] => Some c
  | i :: sched' =>
      match fst c !! i with
      | Some t =>
          match step_call i t (snd c) with
          | Some (t', σ') => schedule sched' (<[i := t']> (fst c), σ')
          | None => None
          end
      | None => None
      end
  end.

End Interleaving.

Arguments Thread : clear implicits.

(** The effects that the mutex protects: identifier generation, provider
    dispatch, cookie mutation. *)
Definition critical (e : Effect) : bool :=
  match e with
  | EvReadFull _ _ | EvSessionInit _ | EvSessionRead _ | EvSessionDestroy _
  | EvSetCookie _ => true
  | EvLock | EvUnlock | EvLog _ => false
  end.

(** Who holds the mutex after call [i] has performed [e]. *)
Definition next_owner (owner : option nat) (i : nat) (e : Effect) : option nat :=
  match e with
  | EvLock => Some i
  | EvUnlock => None
  | _ => owner
  end.

Definition holds (owner : option nat) (i : nat) : bool :=
  match owner with
  | Some j => Nat.eqb i j
  | None => false
  end.

(** May call [i] perform [e] when [owner] holds the mutex?  A [Lock] needs
    a free mutex, an [Unlock] and a protected effect need [i] to be the
    holder, a log line needs nothing. *)
Definition allowed (owner : option nat) (i : nat) (e : Effect) : bool :=
  match e with
  | EvLock => match owner with None => true | Some _ => false end
  | EvUnlock => holds owner i
  | _ => if critical e then holds owner i else true
  end.

(** The owner of the mutex after a trace. *)
Fixpoint owner_after (owner : option nat) (tr : list (nat * Effect)) : option nat :=
  match tr with
  | [] => owner
  | (i, e) :: tr' => owner_after (next_owner owner i e) tr'
  end.

(** A trace is serialized when, read from a state where [owner] holds the
    mutex, each of its effects is allowed when it happens. *)
Fixpoint serialized (owner : option nat) (tr : list (nat * Effect)) : bool :=
  match tr with
  | [] => true
  | (i, e) :: tr' => allowed owner i e && serialized (next_owner owner i e) tr'
  end.

(** The shape of a lifecycle call.  [released]: it has given the mutex back
    and returns.  [holding]: it holds the mutex, and will give it back as
    its last effect.  [entering]: it has not taken the mutex yet, performs
    no protected effect before it does, and holds it from then on. *)
Section Discipline.
Context {Sess Store : Type}.

Definition released {A : Type} (p : Prog Sess Store A) : Prop :=
  match p with
  | Ret _ | Panic _ => True
  | _ => False
  end.

Fixpoint holding {A : Type} (p : Prog Sess Store A) : Prop :=
  match p with
  | Ret _ | Panic _ | Lock _ => False
  | Unlock k => released k
  | ReadRandom _ k => forall x, holding (k x)
  | Init _ _ k => forall x, holding (k x)
  | Read _ _ k => forall x, holding (k x)
  | Destroy _ _ k => forall x, holding (k x)
  | SetCookie _ k => holding k
  | Log _ k => holding k
  end.

Fixpoint entering {A : Type} (p : Prog Sess Store A) : Prop :=
  match p with
  | Lock k => holding k
  | Log _ k => entering k
  | _ => False
  end.

(** A body that touches no mutex: under [defer manager.lock.Unlock()] and
    after [Lock] it is a [holding] part. *)
Fixpoint locked_body {A : Type} (p : Prog Sess Store A) : Prop :=
  match p with
  | Ret _ | Panic _ => True
  | Lock _ | Unlock _ => False
  | ReadRandom _ k => forall x, locked_body (k x)
  | Init _ _ k => forall x, locked_body (k x)
  | Read _ _ k => forall x, locked_body (k x)
  | Destroy _ _ k => forall x, locked_body (k x)
  | SetCookie _ k => locked_body k
  | Log _ k => locked_body k
  end.

End Discipline.

(* ===================================================================== *)
(** * Lifecycle calls as threads *)
(* ===================================================================== *)

Section Calls.
Context {Sess Store Val : Type} `{!Session Sess Store Val}.

(** The five lifecycle operations with their arguments. *)
Inductive Call : Type :=
| CallSessionStart (r : http.Request)
| CallSessionEnd (s : option Sess)
| CallApiSessionStart (r : http.Request)
| CallApiSessionCreate
| CallApiSessionEnd (s : option Sess).

(** A call on [manager] about to start, with an empty response. *)
Definition start_call (manager : Manager Sess Store) (c : Call) : Thread Sess Store :=
  match c with
  | CallSessionStart r => mkThread _ (SessionStart manager r) []
  | CallSessionEnd s => mkThread _ (SessionEnd manager s) []
  | CallApiSessionStart r => mkThread _ (ApiSessionStart manager r) []
  | CallApiSessionCreate => mkThread _ (ApiSessionCreate manager) []
  | CallApiSessionEnd s => mkThread _ (ApiSessionEnd manager s) []
  end.

(** What holds of every configuration that calls of the disciplined shape
    reach: the trace is serialized, the mutex is held by the call the trace
    says, and that call, and no other, is in its [holding] part. *)
Definition call_invariant (c : list (Thread Sess Store) * World Store) : Prop :=
  serialized None (trace (snd c)) = true /\
  owner_after None (trace (snd c)) = lock (snd c) /\
  forall i t, fst c !! i = Some t ->
    (lock (snd c) = Some i /\ holding (code t)) \/
    (lock (snd c) <> Some i /\ (entering (code t) \/ released (code t))).

End Calls.

Arguments Call : clear implicits.

(* ===================================================================== *)
(** * Registrations in a row, and calls that set no cookie *)
(* ===================================================================== *)

(** A run of [Register] calls, as the [init] functions of the backends make
    them; a call that panics leaves the map to the next one as it was. *)
Definition RegisterAll {Sess Store : Type}
    (calls : list (string * option (Provider Sess Store)))
    (provides : gmap string (Provider Sess Store))
  : gmap string (Provider Sess Store) :=
  fold_left (fun reg call => snd (Register (fst call) (snd call) reg)) calls provides.

Section CookieFree.
Context {Sess Store : Type}.

(** Code without any [http.SetCookie]. *)
Fixpoint cookie_free {A : Type} (p : Prog Sess Store A) : Prop :=
  match p with
  | Ret _ | Panic _ => True
  | SetCookie _ _ => False
  | Lock k | Unlock k | Log _ k => cookie_free k
  | ReadRandom _ k => forall x, cookie_free (k x)
  | Init _ _ k => forall x, cookie_free (k x)
  | Read _ _ k => forall x, cookie_free (k x)
  | Destroy _ _ k => forall x, cookie_free (k x)
  end.

End CookieFree.

(** A log line in a trace. *)
Definition is_log (e : nat * Effect) : Prop :=
  match snd e with
  | EvLog _ => True
  | _ => False
  end.

(** The calls of provider methods in a trace. *)
Definition dispatch (e : nat * Effect) : bool :=
  match snd e with
  | EvSessionInit _ | EvSessionRead _ | EvSessionDestroy _ => true
  | _ => false
  end.

(** The calls that end a session and are given none. *)
Definition ends_nothing {Sess : Type} (c : Call Sess) : bool :=
  match c with
  | CallSessionEnd None | CallApiSessionEnd None => true
  | _ => false
  end.

(* ===================================================================== *)
(** * Provider calls that never return *)
(* ===================================================================== *)

(** The methods of a [Provider] are functions of the store: in [exec] and
    in [step_call] a provider call returns.  A method of a real backend may
    also never return: it waits for a connection, or it calls back into the
    manager and waits there for the mutex that its caller holds.  What
    ends a call that runs alone is then its outcome, or the provider call
    in which it stays. *)
Inductive Ending (A : Type) : Type :=
| Ended (o : Outcome A)
| Hangs (e : Effect).

Arguments Ended {A}.
Arguments Hangs {A}.

Section Hanging.
Context {Sess Store : Type}.

(** [hang e st] says that the provider call with the effect [e] (the
    method and its argument), made on the store [st], never returns. *)
Variable hang : Effect -> Store -> bool.

(** The provider call that a call is about to make, if that is its next
    effect. *)
Definition provider_call {A : Type} (p : Prog Sess Store A) : option Effect :=
  match p with
  | Init _ sid _ => Some (EvSessionInit sid)
  | Read _ sid _ => Some (EvSessionRead sid)
  | Destroy _ sid _ => Some (EvSessionDestroy sid)
  | _ => None
  end.

Definition hangs_at {A : Type} (p : Prog Sess Store A) (σ : World Store) : bool :=
  match provider_call p with
  | Some e => hang e (store σ)
  | None => false
  end.

(** [exec] with provider calls that may never return: the call stays in
    the first of them, with the world as it is at that point. *)
Fixpoint exec_hang {A : Type} (i : nat) (p : Prog Sess Store A)
    (σ : World Store) (w : http.ResponseWriter)
  : Ending A * World Store * http.ResponseWriter :=
  match p with
  | Ret a => (Ended (Returned a), σ, w)
  | Panic msg => (Ended (Panicked msg), σ, w)
  | Lock k =>
      match do_lock i σ with
      | Some σ' => exec_hang i k σ' w
      | None => (Ended Blocked, σ, w)
      end
  | Unlock k =>
      match do_unlock i σ with
      | Some σ' => exec_hang i k σ' w
      | None => (Ended (Fatal unlock_of_unlocked), σ, w)
      end
  | ReadRandom n k =>
      let '(res, σ') := do_read i n σ in exec_hang i (k res) σ' w
  | Init p sid k =>
      if hang (EvSessionInit sid) (store σ) then (Hangs (EvSessionInit sid), σ, w)
      else
        let '(res, σ') := do_call i (EvSessionInit sid) (SessionInit p sid) σ in
        exec_hang i (k res) σ' w
  | Read p sid k =>
      if hang (EvSessionRead sid) (store σ) then (Hangs (EvSessionRead sid), σ, w)
      else
        let '(res, σ') := do_call i (EvSessionRead sid) (SessionRead p sid) σ in
        exec_hang i (k res) σ' w
  | Destroy p sid k =>
      if hang (EvSessionDestroy sid) (store σ) then (Hangs (EvSessionDestroy sid), σ, w)
      else
        let '(res, σ') := do_call i (EvSessionDestroy sid) (SessionDestroy p sid) σ in
        exec_hang i (k res) σ' w
  | SetCookie c k => exec_hang i k (emit i (EvSetCookie c) σ) (http.SetCookie w c)
  | Log e k => exec_hang i k (emit i (EvLog e) σ) w
  end.

(** How call [i], run alone, may end when all goes well with the mutex:
    with a result or a panic and the mutex free, or inside a provider call
    that never returns, the mutex still held. *)
Definition settles {A : Type} (i : nat)
    (res : Ending A * World Store * http.ResponseWriter) : Prop :=
  match fst (fst res) with
  | Ended (Returned _) | Ended (Panicked _) => lock (snd (fst res)) = None
  | Ended (Fatal _) | Ended Blocked => False
  | Hangs e =>
      dispatch (i, e) = true /\
      hang e (store (snd (fst res))) = true /\
      lock (snd (fst res)) = Some i
  end.

(** [step_call] with provider calls that may never return: a call about to
    make such a call makes no step. *)
Definition step_call_hang (i : nat) (t : Thread Sess Store) (σ : World Store)
  : option (Thread Sess Store * World Store) :=
  if hangs_at (code t) σ then None else step_call i t σ.

Fixpoint schedule_hang (sched : list nat) (c : list (Thread Sess Store) * World Store)
  : option (list (Thread Sess Store) * World Store) :=
  match sched with
  | [] => Some c
  | i :: sched' =>
      match fst c !! i with
      | Some t =>
          match step_call_hang i t (snd c) with
          | Some (t', σ') => schedule_hang sched' (<[i := t']> (fst c), σ')
          | None => None
          end
      | None => None
      end
  end.

End Hanging.

(* ===================================================================== *)
(** * A provider for the examples *)
(* ===================================================================== *)

(** A provider that keeps its sessions in a list, newest first, each with
    its key/value pairs; [SessionRead] of an unknown id is an error.  The
    second provider differs in that its [SessionDestroy] always fails. *)
Module memory.

Record SessionStore : Type := mkSession {
  sid : string;
}.

Definition Store : Type := list (string * list (string * string)).

Definition lookup (id : string) (st : Store) : option (list (string * string)) :=
  match List.find (fun e => String.eqb (fst e) id) st with
  | Some e => Some (snd e)
  | None => None
  end.

Definition remove (id : string) (st : Store) : Store :=
  List.filter (fun e => negb (String.eqb (fst e) id)) st.

Definition update (id : string) (f : list (string * string) -> list (string * string))
    (st : Store) : Store :=
  List.map (fun e => if String.eqb (fst e) id then (fst e, f (snd e)) else e) st.

#[global] Instance session : Session SessionStore Store string := {|
  Set_ s key value st := (None, update (sid s) (fun kv => (key, value) :: kv) st);
  Get s key st :=
    match lookup (sid s) st with
    | Some kv =>
        match List.find (fun e => String.eqb (fst e) key) kv with
        | Some e => Some (snd e)
        | None => None
        end
    | None => None
    end;
  Delete s key st :=
    (None, update (sid s)
             (List.filter (fun e => negb (String.eqb (fst e) key))) st);
  SessionID s := sid s;
|}.

Definition not_found : error := errors_New "session: not found".
Definition read_only : error := errors_New "session: store is read-only".

Definition provider : Provider SessionStore Store := {|
  SessionInit id st := ((Some (mkSession id), None), (id, []) :: st);
  SessionRead id st :=
    match lookup id st with
    | Some _ => ((Some (mkSession id), None), st)
    | None => ((None, Some not_found), st)
    end;
  SessionDestroy id st := (None, remove id st);
  SessionGC _ st := st;
|}.

Definition stubborn : Provider SessionStore Store := {|
  SessionInit := SessionInit provider;
  SessionRead := SessionRead provider;
  SessionDestroy id st := (Some read_only, st);
  SessionGC _ st := st;
|}.

(** A random source that delivers the [n] bytes [b], [b+1], ... *)
Fixpoint counting (n : nat) (b : Z) : rand.Reader :=
  match n with
  | O => []
  | S n' => Some (byte_of_Z b) :: counting n' (b + 1)
  end.

Definition manager : Manager SessionStore Store :=
  mkManager "sid" provider 3600.

(** Managers with a cookie name that is not a valid one. *)
Definition spaced : Manager SessionStore Store :=
  mkManager "session id" provider 3600.

Definition unnamed : Manager SessionStore Store :=
  mkManager "" provider 3600.

(** Managers with a lifetime that is not positive. *)
Definition lapsed : Manager SessionStore Store :=
  mkManager "sid" provider (-5).

Definition momentary : Manager SessionStore Store :=
  mkManager "sid" provider 0.

Definition world (r : rand.Reader) : World Store := mkWorld r [] None [].

(** A world with no entropy left and the one session [id] in the store. *)
Definition stored (id : string) : World Store := mkWorld [] [(id, [])] None [].

Definition no_cookie : http.Request := http.mkRequest [] ∅.

Definition with_cookie (name value : string) : http.Request :=
  http.mkRequest [http.mkCookie name value "" false 0] ∅.

Definition with_token (value : string) : http.Request :=
  http.mkRequest [] {[ "X-Session-Token" := [value] ]}.

(** A backend whose [SessionDestroy] never returns, and one whose methods
    all return. *)
Definition destroy_hangs (e : Effect) (st : Store) : bool :=
  match e with
  | EvSessionDestroy _ => true
  | _ => false
  end.

Definition all_return (e : Effect) (st : Store) : bool := false.

End memory.

(* ===================================================================== *)
(** * Facts about the base64 encoding *)
(* ===================================================================== *)

Module base64_facts.
Import base64.

Lemma testbit_low (a k n : Z) : 0 <= a < 2 ^ k -> 0 <= k -> k <= n -> Z.testbit a n = false.
Proof.
  intros Ha Hk Hn.
  rewrite <- (Z.mod_small a (2 ^ k)) by lia.
  apply Z.mod_pow2_bits_high; lia.
Qed.

Lemma testbit_63 n : 0 <= n -> Z.testbit 63 n = (n <? 6)%Z.
Proof.
  intros Hn. change 63 with (Z.ones 6).
  destruct (Z.ltb_spec n 6).
  - apply Z.ones_spec_low; lia.
  - apply Z.ones_spec_high; lia.
Qed.

Lemma regroup_sextets val :
  0 <= val < 2 ^ 24 ->
  regroup (sextet val 18) (sextet val 12) (sextet val 6) (sextet val 0) = val.
Proof.
  intros Hv. unfold regroup, sextet.
  apply Z.bits_inj'. intros n Hn.
  rewrite !Z.lor_spec, !Z.land_spec.
  destruct (Z.ltb_spec n 6); [|destruct (Z.ltb_spec n 12); [|destruct (Z.ltb_spec n 18)]].
  all: rewrite ?Z.shiftl_spec, ?Z.land_spec, ?Z.shiftr_spec, ?testbit_63 by lia.
  all: rewrite ?(Z.testbit_neg_r _ (n - 18)), ?(Z.testbit_neg_r _ (n - 12)), ?(Z.testbit_neg_r _ (n - 6))  by lia.
  all: rewrite ?Z.land_spec, ?Z.shiftr_spec, ?testbit_63 by lia.
  all: replace (n - 6 + 6) with n by lia; replace (n - 12 + 12) with n by lia; replace (n - 18 + 18) with n by lia; rewrite ?Z.add_0_r.
  all: repeat match goal with |- context [(?a <? ?b)%Z] => destruct (Z.ltb_spec a b); try lia end.
  all: rewrite ?andb_true_r, ?andb_false_r, ?orb_false_r, ?orb_false_l; try reflexivity.
  all: symmetry; apply (testbit_low val 24); lia.
Qed.

Lemma testbit_255 n : 0 <= n -> Z.testbit 255 n = (n <? 8)%Z.
Proof.
  intros Hn. change 255 with (Z.ones 8).
  destruct (Z.ltb_spec n 8).
  - apply Z.ones_spec_low; lia.
  - apply Z.ones_spec_high; lia.
Qed.

Lemma group_split a b c :
  0 <= a < 256 -> 0 <= b < 256 -> 0 <= c < 256 ->
  Z.land (Z.shiftr (group a b c) 16) 255 = a /\
  Z.land (Z.shiftr (group a b c) 8) 255 = b /\
  Z.land (group a b c) 255 = c.
Proof.
  intros Ha Hb Hc. unfold group.
  repeat split; apply Z.bits_inj'; intros n Hn;
    rewrite Z.land_spec, ?Z.shiftr_spec, !Z.lor_spec, !Z.shiftl_spec, testbit_255 by lia;
    destruct (Z.ltb_spec n 8);
    rewrite ?andb_true_r, ?andb_false_r.
  - replace (n + 16 - 16) with n by lia.
    rewrite (testbit_low b 8 (n + 16 - 8)), (testbit_low c 8 (n + 16)) by lia.
    now rewrite !orb_false_r.
  - symmetry. apply (testbit_low a 8); lia.
  - replace (n + 8 - 8) with n by lia.
    rewrite (Z.testbit_neg_r a (n + 8 - 16)), (testbit_low c 8 (n + 8)) by lia.
    now rewrite orb_false_r.
  - symmetry. apply (testbit_low b 8); lia.
  - rewrite (Z.testbit_neg_r a (n - 16)), (Z.testbit_neg_r b (n - 8)) by lia.
    reflexivity.
  - symmetry. apply (testbit_low c 8); lia.
Qed.

Lemma group_bound a b c :
  0 <= a < 256 -> 0 <= b < 256 -> 0 <= c < 256 -> 0 <= group a b c < 2 ^ 24.
Proof.
  intros Ha Hb Hc. unfold group. split.
  - rewrite !Z.lor_nonneg, !Z.shiftl_nonneg. lia.
  - destruct (Z.eq_dec (Z.lor (Z.lor (Z.shiftl a 16) (Z.shiftl b 8)) c) 0) as [->|Hne]; [lia|].
    apply Z.log2_lt_pow2.
    + assert (0 <= Z.lor (Z.lor (Z.shiftl a 16) (Z.shiftl b 8)) c)
        by (rewrite !Z.lor_nonneg, !Z.shiftl_nonneg; lia). lia.
    + rewrite !Z.log2_lor by (rewrite ?Z.lor_nonneg, ?Z.shiftl_nonneg; lia).
      assert (Z.log2 c < 24).
      { destruct (Z.eq_dec c 0) as [->|]; [simpl; lia|]. apply Z.log2_lt_pow2; lia. }
      assert (Z.log2 (Z.shiftl b 8) < 24).
      { destruct (Z.eq_dec b 0) as [->|]; [simpl; lia|].
        rewrite Z.log2_shiftl by lia.
        assert (Z.log2 b < 8) by (apply Z.log2_lt_pow2; lia). lia. }
      assert (Z.log2 (Z.shiftl a 16) < 24).
      { destruct (Z.eq_dec a 0) as [->|]; [simpl; lia|].
        rewrite Z.log2_shiftl by lia.
        assert (Z.log2 a < 8) by (apply Z.log2_lt_pow2; lia). lia. }
      lia.
Qed.

Lemma Z_of_byte_range b : 0 <= Z_of_byte b < 256.
Proof.
  unfold Z_of_byte. pose proof (Byte.to_N_bounded b). lia.
Qed.

Lemma byte_of_Z_of_byte b : byte_of_Z (Z_of_byte b) = b.
Proof.
  unfold byte_of_Z.
  replace (Z.land (Z_of_byte b) 255) with (Z_of_byte b).
  - unfold Z_of_byte. rewrite N2Z.id, Byte.of_to_N. reflexivity.
  - change 255 with (Z.ones 8). rewrite Z.land_ones by lia.
    symmetry. apply Z.mod_small. apply Z_of_byte_range.
Qed.

Lemma byte_of_Z_land z : byte_of_Z (Z.land z 255) = byte_of_Z z.
Proof.
  unfold byte_of_Z. rewrite <- Z.land_assoc. reflexivity.
Qed.

Lemma sextet_range val k : 0 <= sextet val k < 64.
Proof.
  unfold sextet. change 63 with (Z.ones 6). rewrite Z.land_ones by lia.
  apply Z.mod_pos_bound. lia.
Qed.

Lemma alphabet_inverse_nat (n : nat) :
  (n < 64)%nat -> decodeMap (encode (Z.of_nat n)) = Z.of_nat n.
Proof.
  do 64 (destruct n as [|n]; [intros _; vm_compute; reflexivity|]).
  lia.
Qed.

Lemma alphabet_inverse i : 0 <= i < 64 -> decodeMap (encode i) = i.
Proof.
  intros Hi. rewrite <- (Z2Nat.id i) by lia.
  apply alphabet_inverse_nat. lia.
Qed.

Lemma encode_valid i : 0 <= i < 64 -> valid (encode i) = true.
Proof.
  intros Hi. unfold valid. rewrite alphabet_inverse by lia.
  destruct (Z.eqb_spec i 255); [lia | reflexivity].
Qed.

Lemma valid_not_newline c : valid c = true -> is_newline c = false.
Proof.
  unfold is_newline. intros Hv.
  destruct (Ascii.eqb_spec c "010"%char) as [->|]; [vm_compute in Hv; discriminate Hv|].
  destruct (Ascii.eqb_spec c "013"%char) as [->|]; [vm_compute in Hv; discriminate Hv|].
  reflexivity.
Qed.

Lemma group_low8 a b : 0 <= a -> 0 <= b -> sextet (group a b 0) 0 = 0.
Proof.
  intros Ha Hb. unfold sextet, group.
  apply Z.bits_inj'. intros n Hn.
  rewrite Z.land_spec, Z.shiftr_spec, !Z.lor_spec, !Z.shiftl_spec, testbit_63, !Z.bits_0 by lia.
  destruct (Z.ltb_spec n 6); [|now rewrite andb_false_r].
  now rewrite !Z.testbit_neg_r by lia.
Qed.

Lemma group_low16 a : 0 <= a -> sextet (group a 0 0) 6 = 0.
Proof.
  intros Ha. unfold sextet, group.
  apply Z.bits_inj'. intros n Hn.
  rewrite Z.land_spec, Z.shiftr_spec, !Z.lor_spec, !Z.shiftl_spec, testbit_63, !Z.bits_0 by lia.
  destruct (Z.ltb_spec n 6); [|now rewrite andb_false_r].
  now rewrite !Z.testbit_neg_r by lia.
Qed.

Lemma regroup_two a b :
  0 <= a < 256 -> 0 <= b < 256 ->
  let val := group a b 0 in
  regroup (sextet val 18) (sextet val 12) (sextet val 6) 0 = val.
Proof.
  intros Ha Hb val.
  pose proof (regroup_sextets val (group_bound a b 0 Ha Hb ltac:(lia))) as E.
  unfold val in E at 4. rewrite group_low8 in E by lia. exact E.
Qed.

Lemma regroup_one a :
  0 <= a < 256 ->
  let val := group a 0 0 in
  regroup (sextet val 18) (sextet val 12) 0 0 = val.
Proof.
  intros Ha val.
  pose proof (regroup_sextets val (group_bound a 0 0 Ha ltac:(lia) ltac:(lia))) as E.
  unfold val in E at 3 4. rewrite group_low8, group_low16 in E by lia. exact E.
Qed.

(** Induction over a byte slice in steps of three, the way the encoder
    walks its input. *)
Lemma list_ind3 {A} (P : list A -> Prop) :
  P [] -> (forall a, P [a]) -> (forall a b, P [a; b]) ->
  (forall a b c rest, P rest -> P (a :: b :: c :: rest)) ->
  forall l, P l.
Proof.
  intros H0 H1 H2 H3.
  fix IH 1. intros [|a [|b [|c rest]]];
    [apply H0 | apply H1 | apply H2 | apply H3, IH].
Qed.

Lemma decode_quanta_encode src : decode_quanta (EncodeToString src) = Some src.
Proof.
  induction src as [|a|a b|a b c rest IH] using list_ind3.
  - reflexivity.
  - pose proof (Z_of_byte_range a) as Ha.
    cbn [EncodeToString decode_quanta].
    cbv zeta.
    rewrite !encode_valid by apply sextet_range. 
    change (valid StdPadding) with false. cbn [andb Ascii.eqb]. 
    change (Ascii.eqb StdPadding StdPadding) with true. cbn [andb].
    rewrite !alphabet_inverse by apply sextet_range.
    rewrite (regroup_one (Z_of_byte a)) by lia.
    destruct (group_split (Z_of_byte a) 0 0) as (E1 & _ & _); try lia.
    rewrite <- byte_of_Z_land, E1, byte_of_Z_of_byte. reflexivity.
  - pose proof (Z_of_byte_range a) as Ha. pose proof (Z_of_byte_range b) as Hb.
    cbn [EncodeToString decode_quanta].
    cbv zeta.
    rewrite !encode_valid by apply sextet_range. 
    change (valid StdPadding) with false. cbn [andb]. 
    change (Ascii.eqb StdPadding StdPadding) with true. 
    rewrite !alphabet_inverse by apply sextet_range.
    rewrite (regroup_two (Z_of_byte a) (Z_of_byte b)) by lia.
    destruct (group_split (Z_of_byte a) (Z_of_byte b) 0) as (E1 & E2 & _); try lia.
    rewrite <- (byte_of_Z_land (Z.shiftr _ 16)), <- (byte_of_Z_land (Z.shiftr _ 8)), E1, E2, !byte_of_Z_of_byte. reflexivity.
  - pose proof (Z_of_byte_range a) as Ha. pose proof (Z_of_byte_range b) as Hb.
    pose proof (Z_of_byte_range c) as Hc.
    cbn [EncodeToString decode_quanta].
    cbv zeta.
    rewrite !encode_valid by apply sextet_range. cbn [andb].
    rewrite !alphabet_inverse by apply sextet_range.
    rewrite regroup_sextets by (apply group_bound; lia).
    rewrite IH.
    destruct (group_split (Z_of_byte a) (Z_of_byte b) (Z_of_byte c)) as (E1 & E2 & E3); try lia.
    rewrite <- (byte_of_Z_land (Z.shiftr _ 16)), <- (byte_of_Z_land (Z.shiftr _ 8)), 
       <- (byte_of_Z_land (group _ _ _)), E1, E2, E3, !byte_of_Z_of_byte. reflexivity.
Qed.

Lemma strip_newlines_encode src : strip_newlines (EncodeToString src) = EncodeToString src.
Proof.
  induction src as [|a|a b|a b c rest IH] using list_ind3;
    cbn [EncodeToString strip_newlines]; cbv zeta;
    rewrite ?(valid_not_newline (encode _)) by (apply encode_valid, sextet_range);
    change (is_newline StdPadding) with false; cbn [strip_newlines]; congruence.
Qed.

Theorem DecodeString_EncodeToString src : DecodeString (EncodeToString src) = Some src.
Proof.
  unfold DecodeString. rewrite strip_newlines_encode. apply decode_quanta_encode.
Qed.

Lemma EncodeToString_alphabet src : string_forall url_safe (EncodeToString src) = true.
Proof.
  induction src as [|a|a b|a b c rest IH] using list_ind3;
    cbn [EncodeToString string_forall]; cbv zeta; unfold url_safe;
    rewrite ?encode_valid by apply sextet_range;
    change (Ascii.eqb StdPadding StdPadding) with true;
    rewrite ?orb_true_r; cbn [andb orb]; auto.
Qed.

Lemma EncodeToString_inj a b : EncodeToString a = EncodeToString b -> a = b.
Proof.
  intros E. apply (f_equal DecodeString) in E.
  rewrite !DecodeString_EncodeToString in E. congruence.
Qed.

Lemma EncodeToString_nonempty src : src <> [] -> EncodeToString src <> "".
Proof.
  intros Hne E. apply Hne. apply EncodeToString_inj. exact E.
Qed.

End base64_facts.

(* ===================================================================== *)
(** * Facts about query escaping *)
(* ===================================================================== *)

Module url_facts.
Import url.

Lemma escape_ok_all c : escape_ok c = true.
Proof.
  destruct c as [[] [] [] [] [] [] [] []]; vm_compute; reflexivity.
Qed.

Lemma unescape_escape s :
  malformed (QueryEscape s) = None /\ decode (QueryEscape s) = s.
Proof.
  induction s as [|c s [IHm IHd]]; [split; reflexivity|].
  pose proof (escape_ok_all c) as Hc. unfold escape_ok in Hc.
  cbn [QueryEscape].
  destruct (shouldEscape c).
  - apply andb_prop in Hc as [Hc Hc3]. apply andb_prop in Hc as [Hc1 Hc2].
    apply Ascii.eqb_eq in Hc3.
    destruct (Ascii.eqb_spec c " ") as [->|Hsp].
    + cbn. rewrite IHm, IHd. split; reflexivity.
    + cbn [malformed decode]. change (Ascii.eqb "%" "%") with true. cbv iota.
      rewrite Hc1, Hc2, Hc3, IHm, IHd. split; reflexivity.
  - apply andb_prop in Hc as [Hc1 Hc2].
    apply negb_true_iff in Hc1, Hc2.
    cbn [malformed decode]. rewrite Hc1, Hc2, IHm, IHd. split; reflexivity.
Qed.

Theorem QueryUnescape_QueryEscape s : QueryUnescape (QueryEscape s) = (s, None).
Proof.
  unfold QueryUnescape. destruct (unescape_escape s) as [-> ->]. reflexivity.
Qed.

Lemma QueryEscape_nonempty s : s <> "" -> QueryEscape s <> "".
Proof.
  destruct s as [|c s]; [congruence|]. intros _. cbn [QueryEscape].
  destruct (shouldEscape c); [destruct (Ascii.eqb c " ")|]; discriminate.
Qed.

Lemma QueryUnescape_error s e : snd (QueryUnescape s) = Some e -> fst (QueryUnescape s) = "".
Proof.
  unfold QueryUnescape. destruct (malformed s); [reflexivity | discriminate].
Qed.


End url_facts.

(* ===================================================================== *)
(** * Facts about the serialization of cookies *)
(* ===================================================================== *)

Module http_facts.
Import http.

Lemma escape_plain_all c : escape_plain c = true.
Proof.
  destruct c as [[] [] [] [] [] [] [] []]; vm_compute; reflexivity.
Qed.

Lemma string_forall_app P (s t : string) :
  string_forall P (s ++ t) = string_forall P s && string_forall P t.
Proof.
  induction s as [|c s IH]; [reflexivity|].
  simpl. rewrite IH. apply andb_assoc.
Qed.

Lemma QueryEscape_cons c s :
  url.QueryEscape (String c s) = url.QueryEscape (String c "") ++ url.QueryEscape s.
Proof.
  cbn [url.QueryEscape].
  destruct (url.shouldEscape c); [destruct (Ascii.eqb c " ")|]; reflexivity.
Qed.

Lemma QueryEscape_plain s : string_forall plain (url.QueryEscape s) = true.
Proof.
  induction s as [|c s IH]; [reflexivity|].
  rewrite QueryEscape_cons, string_forall_app, IH.
  fold (escape_plain c). now rewrite escape_plain_all.
Qed.

Lemma sanitizeCookieValue_plain v :
  string_forall plain v = true -> sanitizeCookieValue v = v.
Proof.
  intros Hv.
  assert (H : string_filter validCookieValueByte v = v /\
              string_exists (fun c => Ascii.eqb c " " || Ascii.eqb c ",") v = false).
  { induction v as [|c v IH]; [split; reflexivity|].
    cbn [string_forall] in Hv. apply andb_prop in Hv as [Hc Hv].
    unfold plain in Hc. apply andb_prop in Hc as [Hc1 Hc2].
    apply negb_true_iff in Hc2. destruct (IH Hv) as [IH1 IH2].
    cbn [string_filter string_exists]. rewrite Hc1, Hc2, IH1, IH2. split; reflexivity. }
  unfold sanitizeCookieValue, sanitizeOrWarn. destruct H as [-> ->]. reflexivity.
Qed.

(** The value of a session cookie goes into the header as it is. *)
Lemma sanitizeCookieValue_QueryEscape s :
  sanitizeCookieValue (url.QueryEscape s) = url.QueryEscape s.
Proof. apply sanitizeCookieValue_plain, QueryEscape_plain. Qed.

Lemma SetCookie_valid (w : ResponseWriter) (name sid : string) (maxAge : Z) :
  isCookieNameValid name = true ->
  SetCookie w (mkCookie name (url.QueryEscape sid) "/" true maxAge) =
    (w ++ [session_line name sid maxAge])%list.
Proof.
  intros Hn. unfold SetCookie, Cookie_String. cbn [Name Value Path MaxAge HttpOnly].
  rewrite Hn, sanitizeCookieValue_QueryEscape. cbn [negb String.eqb].
  change (sanitizeCookiePath "/") with "/".
  destruct name as [|c name]; [discriminate Hn|]. reflexivity.
Qed.

Lemma SetCookie_invalid (w : ResponseWriter) (c : Cookie) :
  isCookieNameValid (Name c) = false -> SetCookie w c = w.
Proof.
  intros Hn. unfold SetCookie, Cookie_String. rewrite Hn. reflexivity.
Qed.

(** What [SetCookie] does with a cookie of the manager. *)
Lemma SetCookie_session (w : ResponseWriter) (name sid : string) (maxAge : Z) :
  SetCookie w (mkCookie name (url.QueryEscape sid) "/" true maxAge) =
    if isCookieNameValid name
    then (w ++ [session_line name sid maxAge])%list
    else w.
Proof.
  destruct (isCookieNameValid name) eqn:Hn.
  - now apply SetCookie_valid.
  - now apply SetCookie_invalid.
Qed.

End http_facts.

(* ===================================================================== *)
(** * Execution of commands *)
(* ===================================================================== *)

Lemma wrap_int64 x : int64_range x -> int_of_int64 x = x.
Proof.
  unfold int64_range, int_of_int64, wrap. intros Hx.
  rewrite Z.mod_small; lia.
Qed.

Section Sequential.
Context {Sess Store Val : Type} `{!Session Sess Store Val}.

Implicit Types (σ : World Store) (w : http.ResponseWriter) (i : nat).
Implicit Types (manager : Manager Sess Store).

Lemma exec_bind {A B} (p : Prog Sess Store A) (f : A -> Prog Sess Store B) i σ w :
  exec i (bind p f) σ w =
  match exec i p σ w with
  | (Returned a, σ', w') => exec i (f a) σ' w'
  | (Panicked msg, σ', w') => (Panicked msg, σ', w')
  | (Fatal msg, σ', w') => (Fatal msg, σ', w')
  | (Blocked, σ', w') => (Blocked, σ', w')
  end.
Proof.
  revert σ w.
  induction p as [a|msg|k IH|k IH|n k IH|p sid k IH|p sid k IH|p sid k IH|c k IH|e k IH];
    intros σ w; cbn [bind exec]; try reflexivity.
  - destruct (do_lock i σ); [apply IH | reflexivity].
  - destruct (do_unlock i σ); [apply IH | reflexivity].
  - destruct (do_read i n σ). apply IH.
  - destruct (do_call i _ _ σ). apply IH.
  - destruct (do_call i _ _ σ). apply IH.
  - destruct (do_call i _ _ σ). apply IH.
  - apply IH.
  - apply IH.
Qed.

Lemma exec_mbind {A B} (p : Prog Sess Store A) (f : A -> Prog Sess Store B) i σ w :
  exec i (p ≫= f) σ w =
  match exec i p σ w with
  | (Returned a, σ', w') => exec i (f a) σ' w'
  | (Panicked msg, σ', w') => (Panicked msg, σ', w')
  | (Fatal msg, σ', w') => (Fatal msg, σ', w')
  | (Blocked, σ', w') => (Blocked, σ', w')
  end.
Proof. apply exec_bind. Qed.

Lemma exec_defer {A} (d : Prog Sess Store unit) (body : Prog Sess Store A) i σ w :
  exec i (defer d body) σ w =
  match exec i body σ w with
  | (Returned a, σ', w') =>
      let '(od, σ'', w'') := exec i d σ' w' in (after_defer (Returned a) od, σ'', w'')
  | (Panicked msg, σ', w') =>
      let '(od, σ'', w'') := exec i d σ' w' in (after_defer (Panicked msg) od, σ'', w'')
  | (Fatal msg, σ', w') => (Fatal msg, σ', w')
  | (Blocked, σ', w') => (Blocked, σ', w')
  end.
Proof.
  revert σ w.
  induction body as [a|msg|k IH|k IH|n k IH|p sid k IH|p sid k IH|p sid k IH|c k IH|e k IH];
    intros σ w; cbn [defer exec].
  - rewrite exec_bind. destruct (exec i d σ w) as [[[]]]; reflexivity.
  - rewrite exec_bind. destruct (exec i d σ w) as [[[]]]; reflexivity.
  - destruct (do_lock i σ); [apply IH | reflexivity].
  - destruct (do_unlock i σ); [apply IH | reflexivity].
  - destruct (do_read i n σ). apply IH.
  - destruct (do_call i _ _ σ). apply IH.
  - destruct (do_call i _ _ σ). apply IH.
  - destruct (do_call i _ _ σ). apply IH.
  - apply IH.
  - apply IH.
Qed.

Lemma exec_mret {A} (a : A) i σ w :
  exec (Sess:=Sess) i (mret a) σ w = (Returned a, σ, w).
Proof. reflexivity. Qed.

Lemma exec_Panic {A} msg i σ w :
  exec (Sess:=Sess) (A:=A) i (Panic msg) σ w = (Panicked msg, σ, w).
Proof. reflexivity. Qed.

(** The world after the effects of a call, in terms of its fields. *)
Lemma exec_Lock i σ w :
  lock σ = None ->
  exec (Sess:=Sess) i lock_Lock σ w =
    (Returned tt, mkWorld (Reader σ) (store σ) (Some i) (trace σ ++ [(i, EvLock)]), w).
Proof. intros Hl. cbn. unfold do_lock. rewrite Hl. reflexivity. Qed.

Lemma exec_Unlock i j σ w :
  lock σ = Some j ->
  exec (Sess:=Sess) i lock_Unlock σ w =
    (Returned tt, mkWorld (Reader σ) (store σ) None (trace σ ++ [(i, EvUnlock)]), w).
Proof. intros Hl. cbn. unfold do_unlock. rewrite Hl. reflexivity. Qed.

Lemma exec_log i e σ w :
  exec (Sess:=Sess) i (log_ e) σ w =
    (Returned tt, mkWorld (Reader σ) (store σ) (lock σ) (trace σ ++ [(i, EvLog e)]), w).
Proof. reflexivity. Qed.

Lemma exec_SetCookie i c σ w :
  exec (Sess:=Sess) i (http_SetCookie c) σ w =
    (Returned tt, mkWorld (Reader σ) (store σ) (lock σ) (trace σ ++ [(i, EvSetCookie c)]),
     http.SetCookie w c).
Proof. reflexivity. Qed.

Lemma exec_SessionInit i (p : Provider Sess Store) sid σ w :
  exec i (provider_SessionInit p sid) σ w =
    (Returned (fst (SessionInit p sid (store σ))),
     mkWorld (Reader σ) (snd (SessionInit p sid (store σ))) (lock σ)
             (trace σ ++ [(i, EvSessionInit sid)]), w).
Proof. cbn. unfold do_call. destruct (SessionInit p sid (store σ)). reflexivity. Qed.

Lemma exec_SessionRead i (p : Provider Sess Store) sid σ w :
  exec i (provider_SessionRead p sid) σ w =
    (Returned (fst (SessionRead p sid (store σ))),
     mkWorld (Reader σ) (snd (SessionRead p sid (store σ))) (lock σ)
             (trace σ ++ [(i, EvSessionRead sid)]), w).
Proof. cbn. unfold do_call. destruct (SessionRead p sid (store σ)). reflexivity. Qed.

Lemma exec_SessionDestroy i (p : Provider Sess Store) sid σ w :
  exec i (provider_SessionDestroy p sid) σ w =
    (Returned (fst (SessionDestroy p sid (store σ))),
     mkWorld (Reader σ) (snd (SessionDestroy p sid (store σ))) (lock σ)
             (trace σ ++ [(i, EvSessionDestroy sid)]), w).
Proof. cbn. unfold do_call. destruct (SessionDestroy p sid (store σ)). reflexivity. Qed.

(** [sessionId] returns [identifier] of the random source and advances it. *)
Lemma exec_sessionId i manager σ w :
  exec i (sessionId manager) σ w =
    (Returned (identifier (Reader σ)),
     mkWorld (snd (io.ReadFull 32 (Reader σ))) (store σ) (lock σ)
             (trace σ ++ [(i, EvReadFull 32 (snd (fst (io.ReadFull 32 (Reader σ)))))]),
     w).
Proof.
  unfold sessionId, identifier. rewrite exec_mbind.
  unfold io_ReadFull. cbn [exec]. unfold do_read.
  destruct (io.ReadFull 32 (Reader σ)) as [[b [e|]] r']; reflexivity.
Qed.

End Sequential.

(** Rewriting an execution into the world it ends in. *)
Ltac exec_step :=
  first
    [ rewrite exec_mbind
    | rewrite exec_mret
    | rewrite exec_Panic
    | rewrite exec_defer
    | rewrite exec_sessionId
    | rewrite exec_log
    | rewrite exec_SetCookie
    | rewrite exec_SessionInit
    | rewrite exec_SessionRead
    | rewrite exec_SessionDestroy
    | rewrite exec_Lock; [|first [assumption | reflexivity]]
    | erewrite exec_Unlock; [|reflexivity] ];
  cbn [Reader store lock trace fst snd after_defer].

Ltac exec_all := repeat exec_step.

Ltac exec_done :=
  exec_all; rewrite <- ?app_assoc; cbn [app]; try reflexivity.

(* ===================================================================== *)
(** * The cookie protocol *)
(* ===================================================================== *)

Section CookieProtocol.
Context {Sess Store Val : Type} `{!Session Sess Store Val}.

Implicit Types (σ : World Store) (w : http.ResponseWriter).
Implicit Types (manager : Manager Sess Store) (r : http.Request).

(** The branch of [SessionStart] that creates a session. *)
Lemma SessionStart_create manager r σ w :
  lock σ = None ->
  (snd (http.Request_Cookie r (cookieName manager)) <> None \/
   exists cookie, http.Request_Cookie r (cookieName manager) = (Some cookie, None)
                  /\ http.Value cookie = "") ->
  let sid := identifier (Reader σ) in
  let res := SessionInit (provider manager) sid (store σ) in
  let cookie := http.mkCookie (cookieName manager) (url.QueryEscape sid) "/" true
                              (int_of_int64 (maxlifetime manager)) in
  run (SessionStart manager r) σ w =
    (Returned (fst (fst res)),
     mkWorld (snd (io.ReadFull 32 (Reader σ))) (snd res) None
       (trace σ ++
        [(0%nat, EvLock);
         (0%nat, EvLog (log.Debug ["no valid session id in request cookie, create one"]));
         (0%nat, EvReadFull 32 (snd (fst (io.ReadFull 32 (Reader σ)))));
         (0%nat, EvLog (log.Debug ["new created sid is "; sid]));
         (0%nat, EvSessionInit sid);
         (0%nat, EvSetCookie cookie);
         (0%nat, EvUnlock)]),
     http.SetCookie w cookie).
Proof.
  intros Hl Hc sid res cookie. subst cookie res sid.
  unfold run, SessionStart.
  destruct (SessionInit (provider manager) (identifier (Reader σ)) (store σ))
    as [[session err] st'] eqn:Einit.
  destruct (http.Request_Cookie r (cookieName manager)) as [[c|] [e|]] eqn:E;
    cbn [fst snd] in Hc.
  - exec_all. rewrite Einit. cbn [fst snd]. exec_done.
  - destruct Hc as [Hc|(c' & Hc & Hv)]; [now elim Hc|].
    injection Hc as ->. rewrite Hv. cbn [String.eqb].
    exec_all. rewrite Einit. cbn [fst snd]. exec_done.
  - exec_all. rewrite Einit. cbn [fst snd]. exec_done.
  - destruct Hc as [Hc|(c & Hc & _)]; [now elim Hc | discriminate Hc].
Qed.

(** The branch of [SessionStart] that resumes a session. *)
Lemma SessionStart_resume manager r σ w cookie :
  lock σ = None ->
  http.Request_Cookie r (cookieName manager) = (Some cookie, None) ->
  http.Value cookie <> "" ->
  let sid := fst (url.QueryUnescape (http.Value cookie)) in
  let res := SessionRead (provider manager) sid (store σ) in
  run (SessionStart manager r) σ w =
    (Returned (fst (fst res)),
     mkWorld (Reader σ) (snd res) None
       (trace σ ++
        [(0%nat, EvLock);
         (0%nat, EvLog (log.Debugf
                          ("get valid session id  %s in request cookie %s" ++ newline)
                          [sid; cookieName manager]));
         (0%nat, EvSessionRead sid);
         (0%nat, EvUnlock)]),
     w).
Proof.
  intros Hl Hc Hv sid res. subst res sid.
  unfold run, SessionStart. rewrite Hc.
  destruct (String.eqb_spec (http.Value cookie) "") as [|_]; [contradiction|].
  destruct (url.QueryUnescape (http.Value cookie)) as [sid e].
  cbn [fst].
  destruct (SessionRead (provider manager) sid (store σ)) as [[session err] st'] eqn:Eread.
  exec_all. rewrite Eread. cbn [fst snd]. exec_done.
Qed.

(** C1.  [SessionStart] branches on the cookie named [cookieName].  When the
    cookie is absent or its value is empty, the call generates an
    identifier, hands it to [SessionInit] of the provider, returns the
    session that call gives, and hands to [http.SetCookie] one cookie: its
    value is the query-escaped identifier, its path ["/"], [HttpOnly] is set
    and [MaxAge] is the configured lifetime.  When [cookieName] is a valid
    cookie name, the response gets one more [Set-Cookie] line,
    [cookieName=<escaped identifier>; Path=/; Max-Age=<n>; HttpOnly], where
    [Max-Age] is the lifetime when that is positive, is [0] when it is
    negative and is left out when it is zero; when [cookieName] is not a
    valid cookie name, the response stays as it was.  When the cookie is
    present with a non-empty value, the call query-unescapes the value,
    hands the result to [SessionRead], returns the session that call gives,
    and leaves the response as it was. *)
Theorem SessionStart_branches manager r σ w :
  lock σ = None ->
  int64_range (maxlifetime manager) ->
  ((snd (http.Request_Cookie r (cookieName manager)) <> None \/
    exists cookie, http.Request_Cookie r (cookieName manager) = (Some cookie, None)
                   /\ http.Value cookie = "") ->
   let sid := identifier (Reader σ) in
   let res := SessionInit (provider manager) sid (store σ) in
   let cookie := http.mkCookie (cookieName manager) (url.QueryEscape sid) "/" true
                               (maxlifetime manager) in
   run (SessionStart manager r) σ w =
     (Returned (fst (fst res)),
      mkWorld (snd (io.ReadFull 32 (Reader σ))) (snd res) None
        (trace σ ++
         [(0%nat, EvLock);
          (0%nat, EvLog (log.Debug ["no valid session id in request cookie, create one"]));
          (0%nat, EvReadFull 32 (snd (fst (io.ReadFull 32 (Reader σ)))));
          (0%nat, EvLog (log.Debug ["new created sid is "; sid]));
          (0%nat, EvSessionInit sid);
          (0%nat, EvSetCookie cookie);
          (0%nat, EvUnlock)]),
      if http.isCookieNameValid (cookieName manager)
      then (w ++ [(cookieName manager ++ "=" ++ url.QueryEscape sid ++ "; Path=/"
                     ++ (if (0 <? maxlifetime manager)%Z
                         then "; Max-Age=" ++ http.itoa (maxlifetime manager)
                         else if (maxlifetime manager <? 0)%Z then "; Max-Age=0"
                         else "")
                     ++ "; HttpOnly")%string])%list
      else w)) /\
  (forall cookie,
     http.Request_Cookie r (cookieName manager) = (Some cookie, None) ->
     http.Value cookie <> "" ->
     let sid := fst (url.QueryUnescape (http.Value cookie)) in
     let res := SessionRead (provider manager) sid (store σ) in
     run (SessionStart manager r) σ w =
       (Returned (fst (fst res)),
        mkWorld (Reader σ) (snd res) None
          (trace σ ++
           [(0%nat, EvLock);
            (0%nat, EvLog (log.Debugf
                             ("get valid session id  %s in request cookie %s" ++ newline)
                             [sid; cookieName manager]));
            (0%nat, EvSessionRead sid);
            (0%nat, EvUnlock)]),
        w)).
Proof.
  intros Hl Hm. split.
  - intros Hc. cbv zeta.
    rewrite (SessionStart_create manager r σ w Hl Hc).
    rewrite (wrap_int64 _ Hm), http_facts.SetCookie_session. reflexivity.
  - intros cookie Hc Hv. apply SessionStart_resume; assumption.
Qed.

(** [SessionEnd] on a session. *)
Lemma SessionEnd_run manager (s : Sess) σ w :
  lock σ = None ->
  let sid := SessionID s in
  let res := SessionDestroy (provider manager) sid (store σ) in
  let cookie := http.mkCookie (cookieName manager) (url.QueryEscape sid) "/" true (-1) in
  let failure :=
    match fst res with
    | Some _ =>
        [(0%nat, EvLog (log.Errorf ("destroy session for id %s failed" ++ newline) [sid]))]
    | None => []
    end in
  run (SessionEnd manager (Some s)) σ w =
    (Returned tt,
     mkWorld (Reader σ) (snd res) None
       (trace σ ++
        [(0%nat, EvLock);
         (0%nat, EvSetCookie cookie);
         (0%nat, EvLog (log.Debugf ("destroy session for id %s " ++ newline) [sid]));
         (0%nat, EvSessionDestroy sid)] ++ failure ++ [(0%nat, EvUnlock)]),
     http.SetCookie w cookie).
Proof.
  intros Hl sid res cookie failure. subst failure cookie res sid.
  unfold run, SessionEnd.
  destruct (SessionDestroy (provider manager) (SessionID s) (store σ)) as [err st'] eqn:Ed.
  exec_all. rewrite Ed. cbn [fst snd].
  destruct err as [e|]; exec_done.
Qed.

(** C3.  [SessionEnd] on a session hands to [http.SetCookie] a cookie
    named [cookieName] with [MaxAge] negative, before it calls
    [SessionDestroy] with the session's identifier.  When [cookieName] is a
    valid cookie name, the response gets the [Set-Cookie] line
    [cookieName=<escaped identifier>; Path=/; Max-Age=0; HttpOnly], the
    deletion instruction; when it is not, the response stays as it was.
    Whether [SessionDestroy] fails or not makes no difference to the
    response, and [SessionEnd] returns normally; a failure is logged at error
    level and goes no further. *)
Theorem SessionEnd_clears_cookie manager (s : Sess) σ w :
  lock σ = None ->
  let sid := SessionID s in
  let res := SessionDestroy (provider manager) sid (store σ) in
  let cookie := http.mkCookie (cookieName manager) (url.QueryEscape sid) "/" true (-1) in
  let failure :=
    match fst res with
    | Some _ =>
        [(0%nat, EvLog (log.Errorf ("destroy session for id %s failed" ++ newline) [sid]))]
    | None => []
    end in
  http.MaxAge cookie < 0 /\
  run (SessionEnd manager (Some s)) σ w =
    (Returned tt,
     mkWorld (Reader σ) (snd res) None
       (trace σ ++
        [(0%nat, EvLock);
         (0%nat, EvSetCookie cookie);
         (0%nat, EvLog (log.Debugf ("destroy session for id %s " ++ newline) [sid]));
         (0%nat, EvSessionDestroy sid)] ++ failure ++ [(0%nat, EvUnlock)]),
     if http.isCookieNameValid (cookieName manager)
     then (w ++ [(cookieName manager ++ "=" ++ url.QueryEscape sid
                    ++ "; Path=/; Max-Age=0; HttpOnly")%string])%list
     else w).
Proof.
  intros Hl sid res cookie failure. subst failure cookie res sid.
  split; [cbn; lia|].
  rewrite (SessionEnd_run manager s σ w Hl), http_facts.SetCookie_session.
  reflexivity.
Qed.

(** A nil session makes [s.SessionID()] panic under the lock; the deferred
    unlock runs, no cookie is set. *)
Lemma SessionEnd_nil manager σ w :
  lock σ = None ->
  run (SessionEnd manager None) σ w =
    (Panicked nil_dereference,
     mkWorld (Reader σ) (store σ) None
             (trace σ ++ [(0%nat, EvLock); (0%nat, EvUnlock)]),
     w).
Proof. intros Hl. unfold run, SessionEnd. exec_done. Qed.

(** The cookie of an empty identifier. *)
Lemma SetCookie_empty_value w (name : string) (maxAge : Z) :
  http.SetCookie w (http.mkCookie name "" "/" true maxAge) =
    if http.isCookieNameValid name
    then (w ++ [(name ++ "=; Path=/" ++ http.MaxAge_attribute maxAge
                   ++ "; HttpOnly")%string])%list
    else w.
Proof. exact (http_facts.SetCookie_session w name "" maxAge). Qed.

(** [SessionStart] on a request without cookies when the first read of the
    random source fails. *)
Lemma SessionStart_failing_read manager (rest : rand.Reader) (st : Store)
    (tr : list (nat * Effect)) w :
  let res := SessionInit (provider manager) "" st in
  let cookie := http.mkCookie (cookieName manager) "" "/" true
                              (int_of_int64 (maxlifetime manager)) in
  run (SessionStart manager (http.mkRequest [] ∅)) (mkWorld (None :: rest) st None tr) w =
    (Returned (fst (fst res)),
     mkWorld rest (snd res) None
       (tr ++
        [(0%nat, EvLock);
         (0%nat, EvLog (log.Debug ["no valid session id in request cookie, create one"]));
         (0%nat, EvReadFull 32 (Some ErrReader));
         (0%nat, EvLog (log.Debug ["new created sid is "; ""]));
         (0%nat, EvSessionInit "");
         (0%nat, EvSetCookie cookie);
         (0%nat, EvUnlock)]),
     http.SetCookie w cookie).
Proof.
  cbv zeta. rewrite SessionStart_create; [reflexivity | reflexivity |].
  left. unfold http.Request_Cookie.
  destruct (String.eqb (cookieName manager) ""); cbn; discriminate.
Qed.

(** C2.  A failing read of the random source is not surfaced: [sessionId]
    returns the empty string, and [SessionStart] goes on with it: it calls
    [SessionInit] with the empty identifier, sets a cookie with an empty
    value (the response gets the line [cookieName=; Path=/...] when
    [cookieName] is a valid cookie name) and returns the session the
    provider gave, as after a read that succeeded. *)
Theorem SessionStart_entropy_failure manager (rest : rand.Reader) (st : Store)
    (tr : list (nat * Effect)) w :
  let res := SessionInit (provider manager) "" st in
  let cookie := http.mkCookie (cookieName manager) "" "/" true
                              (int_of_int64 (maxlifetime manager)) in
  run (sessionId manager) (mkWorld (None :: rest) st None tr) w =
    (Returned "",
     mkWorld rest st None (tr ++ [(0%nat, EvReadFull 32 (Some ErrReader))]), w) /\
  run (SessionStart manager (http.mkRequest [] ∅)) (mkWorld (None :: rest) st None tr) w =
    (Returned (fst (fst res)),
     mkWorld rest (snd res) None
       (tr ++
        [(0%nat, EvLock);
         (0%nat, EvLog (log.Debug ["no valid session id in request cookie, create one"]));
         (0%nat, EvReadFull 32 (Some ErrReader));
         (0%nat, EvLog (log.Debug ["new created sid is "; ""]));
         (0%nat, EvSessionInit "");
         (0%nat, EvSetCookie cookie);
         (0%nat, EvUnlock)]),
     if http.isCookieNameValid (cookieName manager)
     then (w ++ [(cookieName manager ++ "=; Path=/"
                    ++ http.MaxAge_attribute (int_of_int64 (maxlifetime manager))
                    ++ "; HttpOnly")%string])%list
     else w).
Proof.
  intros res cookie. split.
  - unfold run. rewrite exec_sessionId. reflexivity.
  - rewrite SessionStart_failing_read. cbv zeta. subst cookie.
    rewrite SetCookie_empty_value. reflexivity.
Qed.

End CookieProtocol.

(* ===================================================================== *)
(** * Identifiers *)
(* ===================================================================== *)

Lemma read_full_length started n (r : rand.Reader) b r' :
  io.read_full started n r = ((b, None), r') -> length b = n.
Proof.
  revert started r b r'.
  induction n as [|n IH]; intros started r b r' E; cbn [io.read_full] in E.
  - injection E as <- _. reflexivity.
  - destruct r as [|[x|] r0]; try discriminate E.
    destruct (io.read_full true n r0) as [[bs err] r''] eqn:E'.
    injection E as <- -> <-. cbn [length]. f_equal. eapply IH, E'.
Qed.

(** A read that delivers: the next [n] elements of the source are bytes. *)
Lemma read_full_delivers started (b : list byte) (rest : rand.Reader) :
  io.read_full started (length b) (map Some b ++ rest)%list = ((b, None), rest).
Proof.
  revert started. induction b as [|x b IH]; intros started; [reflexivity|].
  cbn [length map app io.read_full]. rewrite IH. reflexivity.
Qed.

Lemma ReadFull_block (b : list byte) (rest : rand.Reader) :
  length b = 32%nat -> io.ReadFull 32 (map Some b ++ rest)%list = ((b, None), rest).
Proof.
  intros H. unfold io.ReadFull. rewrite <- H. apply read_full_delivers.
Qed.

Lemma identifier_block (b : list byte) (rest : rand.Reader) :
  length b = 32%nat -> identifier (map Some b ++ rest)%list = base64.EncodeToString b.
Proof.
  intros H. unfold identifier. rewrite ReadFull_block by exact H. reflexivity.
Qed.

(** When the read succeeds, the identifier is the URL-safe base64 text of
    the 32 bytes read: 44 characters of the alphabet and the padding, which
    decode to these bytes. *)
Lemma identifier_encoding (r : rand.Reader) b r' :
  io.ReadFull 32 r = ((b, None), r') ->
  identifier r = base64.EncodeToString b /\
  length b = 32%nat /\
  string_forall base64.url_safe (identifier r) = true /\
  base64.DecodeString (identifier r) = Some b /\
  identifier r <> "".
Proof.
  intros E. unfold identifier. rewrite E.
  pose proof (read_full_length _ _ _ _ _ E) as Hlen.
  repeat split.
  - exact Hlen.
  - apply base64_facts.EncodeToString_alphabet.
  - apply base64_facts.DecodeString_EncodeToString.
  - apply base64_facts.EncodeToString_nonempty. intros ->. discriminate Hlen.
Qed.

Section Identifiers.
Context {Sess Store Val : Type} `{!Session Sess Store Val}.

Implicit Types (σ : World Store) (w : http.ResponseWriter).
Implicit Types (manager : Manager Sess Store) (r : http.Request).

(** [sessionId] on a random source that delivers. *)
Lemma sessionId_encoding manager σ w b rd' :
  io.ReadFull 32 (Reader σ) = ((b, None), rd') ->
  exists id,
    fst (fst (run (sessionId manager) σ w)) = Returned id /\
    id = base64.EncodeToString b /\
    length b = 32%nat /\
    string_forall base64.url_safe id = true /\
    base64.DecodeString id = Some b.
Proof.
  intros E. exists (identifier (Reader σ)).
  unfold run. rewrite exec_sessionId. cbn [fst].
  destruct (identifier_encoding _ _ _ E) as (H1 & H2 & H3 & H4 & _).
  auto.
Qed.

(** C8.  On a failing read of the random source, and on an exhausted
    source, the identifier that [sessionId] returns is the empty string; it
    decodes to no byte at all, so there are no 32 bytes that it decodes
    to. *)
Theorem sessionId_failure_not_32_bytes manager (rest : rand.Reader) (st : Store)
    (l : option nat) (tr : list (nat * Effect)) w :
  fst (fst (run (sessionId manager) (mkWorld (None :: rest) st l tr) w)) = Returned "" /\
  fst (fst (run (sessionId manager) (mkWorld [] st l tr) w)) = Returned "" /\
  base64.DecodeString "" = Some [] /\
  ~ (exists b, base64.DecodeString "" = Some b /\ length b = 32%nat).
Proof.
  unfold run. rewrite !exec_sessionId. repeat split.
  intros (b & Hb & Hlen). injection Hb as <-. discriminate Hlen.
Qed.

(** C5.  With a random source that fails, [SessionStart] on a request
    without cookies answers with a cookie whose value is empty (the line
    [cookieName=; Path=/...] when [cookieName] is a valid cookie name), and
    a second [SessionStart] that carries this cookie does not reach
    [SessionRead]: it takes the creating branch again. *)
Theorem SessionStart_round_trip_entropy_failure manager (rest : rand.Reader)
    (st : Store) (tr : list (nat * Effect)) w w2 :
  let σ := mkWorld (None :: rest) st None tr in
  let first := run (SessionStart manager (http.mkRequest [] ∅)) σ w in
  let cookie := http.mkCookie (cookieName manager) "" "/" true
                              (int_of_int64 (maxlifetime manager)) in
  let σ1 := snd (fst first) in
  let sid2 := identifier rest in
  let res2 := SessionInit (provider manager) sid2 (store σ1) in
  let cookie2 := http.mkCookie (cookieName manager) (url.QueryEscape sid2) "/" true
                               (int_of_int64 (maxlifetime manager)) in
  snd first =
    (if http.isCookieNameValid (cookieName manager)
     then (w ++ [(cookieName manager ++ "=; Path=/"
                    ++ http.MaxAge_attribute (int_of_int64 (maxlifetime manager))
                    ++ "; HttpOnly")%string])%list
     else w) /\
  http.Value cookie = "" /\
  run (SessionStart manager (http.mkRequest [cookie] ∅)) σ1 w2 =
    (Returned (fst (fst res2)),
     mkWorld (snd (io.ReadFull 32 rest)) (snd res2) None
       (trace σ1 ++
        [(0%nat, EvLock);
         (0%nat, EvLog (log.Debug ["no valid session id in request cookie, create one"]));
         (0%nat, EvReadFull 32 (snd (fst (io.ReadFull 32 rest))));
         (0%nat, EvLog (log.Debug ["new created sid is "; sid2]));
         (0%nat, EvSessionInit sid2);
         (0%nat, EvSetCookie cookie2);
         (0%nat, EvUnlock)]),
     if http.isCookieNameValid (cookieName manager)
     then (w2 ++ [(cookieName manager ++ "=" ++ url.QueryEscape sid2 ++ "; Path=/"
                     ++ http.MaxAge_attribute (int_of_int64 (maxlifetime manager))
                     ++ "; HttpOnly")%string])%list
     else w2).
Proof.
  pose proof (SessionStart_failing_read manager rest st tr w) as E1.
  cbv zeta in E1. cbv zeta. rewrite E1. cbn [fst snd].
  split; [apply SetCookie_empty_value|]. split; [reflexivity|].
  rewrite SessionStart_create; [rewrite http_facts.SetCookie_session; reflexivity | reflexivity |].
  unfold http.Request_Cookie.
  destruct (String.eqb (cookieName manager) "") eqn:En; [left; cbn; discriminate|].
  right. eexists. cbn [find http.Name http.Cookies]. rewrite String.eqb_refl.
  split; reflexivity.
Qed.

(** X9.  The round trip when [cookieName] is a valid cookie name, the
    random source delivers and the provider reads back what it has
    initialised: the first [SessionStart] adds to the response the line
    [cookieName=<value>; Path=/...; HttpOnly] with a non-empty value, the
    query-escaped identifier, and a [SessionStart] whose request carries this
    value in the cookie [cookieName] reads back a session whose
    [SessionID()] is the decoded value. *)
Lemma SessionStart_round_trip manager r r2 σ w w2 b rd' :
  http.isCookieNameValid (cookieName manager) = true ->
  lock σ = None ->
  snd (http.Request_Cookie r (cookieName manager)) <> None ->
  io.ReadFull 32 (Reader σ) = ((b, None), rd') ->
  (forall sid st, exists s st',
     SessionRead (provider manager) sid (snd (SessionInit (provider manager) sid st))
       = ((Some s, None), st') /\ SessionID s = sid) ->
  exists value σ1,
    snd (run (SessionStart manager r) σ w) =
      (w ++ [(cookieName manager ++ "=" ++ value ++ "; Path=/"
                ++ http.MaxAge_attribute (int_of_int64 (maxlifetime manager))
                ++ "; HttpOnly")%string])%list /\
    snd (fst (run (SessionStart manager r) σ w)) = σ1 /\
    value = url.QueryEscape (base64.EncodeToString b) /\
    value <> "" /\
    forall cookie2,
      http.Request_Cookie r2 (cookieName manager) = (Some cookie2, None) ->
      http.Value cookie2 = value ->
      exists s σ2,
        run (SessionStart manager r2) σ1 w2 = (Returned (Some s), σ2, w2) /\
        fst (SessionRead (provider manager) (fst (url.QueryUnescape value))
                         (store σ1)) = (Some s, None) /\
        SessionID s = fst (url.QueryUnescape value).
Proof.
  intros Hn Hl Hc E Hp.
  destruct (identifier_encoding _ _ _ E) as (Hid & _ & _ & _ & Hne).
  rewrite (SessionStart_create manager r σ w Hl (or_introl Hc)). cbn [fst snd].
  rewrite http_facts.SetCookie_session, Hn.
  exists (url.QueryEscape (identifier (Reader σ))). eexists.
  split; [reflexivity|]. split; [reflexivity|].
  split; [now rewrite Hid|].
  split; [now apply url_facts.QueryEscape_nonempty|].
  intros cookie2 Hc2 Hv.
  rewrite (SessionStart_resume manager r2 _ w2 cookie2); [|reflexivity|exact Hc2|].
  2: { rewrite Hv. now apply url_facts.QueryEscape_nonempty. }
  cbn [Reader store]. rewrite Hv, url_facts.QueryUnescape_QueryEscape. cbn [fst].
  destruct (Hp (identifier (Reader σ)) (store σ)) as (s & st' & Hr & Hid').
  rewrite Hr. cbn [fst snd]. eexists _, _. repeat split. exact Hid'.
Qed.

End Identifiers.

(* ===================================================================== *)
(** * The token protocol *)
(* ===================================================================== *)

Section TokenProtocol.
Context {Sess Store Val : Type} `{!Session Sess Store Val}.

Implicit Types (σ : World Store) (w : http.ResponseWriter).
Implicit Types (manager : Manager Sess Store) (r : http.Request).

Lemma ApiSessionCreate_run manager σ w :
  lock σ = None ->
  let sid := identifier (Reader σ) in
  let res := SessionInit (provider manager) sid (store σ) in
  run (ApiSessionCreate manager) σ w =
    (Returned (fst (fst res)),
     mkWorld (snd (io.ReadFull 32 (Reader σ))) (snd res) None
       (trace σ ++
        [(0%nat, EvLock);
         (0%nat, EvReadFull 32 (snd (fst (io.ReadFull 32 (Reader σ)))));
         (0%nat, EvLog (log.Debug ["new created sid is "; sid]));
         (0%nat, EvSessionInit sid);
         (0%nat, EvUnlock)]),
     w).
Proof.
  intros Hl. cbv zeta. unfold run, ApiSessionCreate.
  destruct (SessionInit (provider manager) (identifier (Reader σ)) (store σ))
    as [[session err] st'] eqn:Einit.
  exec_all. rewrite Einit. cbn [fst snd]. exec_done.
Qed.

Lemma ApiSessionStart_create manager r σ w :
  fst (url.QueryUnescape (http.Header_Get (http.Header r) "X-Session-Token")) = "" ->
  run (ApiSessionStart manager r) σ w =
  run (ApiSessionCreate manager)
      (mkWorld (Reader σ) (store σ) (lock σ) (trace σ ++ token_logs r)) w.
Proof.
  intros Ht. unfold run, ApiSessionStart.
  destruct (url.QueryUnescape _) as [sid e]. cbn [fst] in Ht. subst sid.
  cbn [String.eqb].
  do 2 (rewrite exec_mbind, exec_log; cbn [Reader store lock trace]).
  rewrite exec_mbind, <- app_assoc. cbn [app]. unfold token_logs.
  destruct (exec 0 (ApiSessionCreate manager) _ w) as [[[a|msg|msg|] σ'] w']; reflexivity.
Qed.

Lemma ApiSessionStart_resume manager r σ w :
  lock σ = None ->
  let sid := fst (url.QueryUnescape (http.Header_Get (http.Header r) "X-Session-Token")) in
  sid <> "" ->
  let res := SessionRead (provider manager) sid (store σ) in
  run (ApiSessionStart manager r) σ w =
    (Returned (fst (fst res)),
     mkWorld (Reader σ) (snd res) None
       (trace σ ++
        [(0%nat, EvLog (log.Debugf "get session token is %s"
                          [http.Header_Get (http.Header r) "X-Session-Token"]));
         (0%nat, EvLock);
         (0%nat, EvSessionRead sid);
         (0%nat, EvUnlock)]),
     w).
Proof.
  intros Hl sid Hne res. subst res sid. unfold run, ApiSessionStart.
  destruct (url.QueryUnescape _) as [sid e]. cbn [fst] in *.
  destruct (String.eqb_spec sid "") as [|_]; [contradiction|].
  destruct (SessionRead (provider manager) sid (store σ)) as [[session err] st'] eqn:Eread.
  exec_all. rewrite Eread. cbn [fst snd]. exec_done.
Qed.

(** C4, amended.  When the [X-Session-Token] header query-unescapes to the
    empty string (an absent header does), [ApiSessionStart] logs two lines
    and then does exactly what [ApiSessionCreate] does on the same state: it
    generates an identifier, calls [SessionInit] with it and returns the
    session of that call.  A second such call does the same from the state
    the first one left; the two identifiers are the encodings of the two
    32-byte blocks the random source delivers, and they differ whenever
    these blocks differ. *)
Theorem ApiSessionStart_empty_token manager r r2 σ w w2 :
  lock σ = None ->
  fst (url.QueryUnescape (http.Header_Get (http.Header r) "X-Session-Token")) = "" ->
  fst (url.QueryUnescape (http.Header_Get (http.Header r2) "X-Session-Token")) = "" ->
  let sid := identifier (Reader σ) in
  let res := SessionInit (provider manager) sid (store σ) in
  let first := run (ApiSessionStart manager r) σ w in
  let σ1 := snd (fst first) in
  let sid2 := identifier (Reader σ1) in
  let second := run (ApiSessionStart manager r2) σ1 w2 in
  first = run (ApiSessionCreate manager)
              (mkWorld (Reader σ) (store σ) (lock σ) (trace σ ++ token_logs r)) w /\
  first =
    (Returned (fst (fst res)),
     mkWorld (snd (io.ReadFull 32 (Reader σ))) (snd res) None
       ((trace σ ++ token_logs r) ++
        [(0%nat, EvLock);
         (0%nat, EvReadFull 32 (snd (fst (io.ReadFull 32 (Reader σ)))));
         (0%nat, EvLog (log.Debug ["new created sid is "; sid]));
         (0%nat, EvSessionInit sid);
         (0%nat, EvUnlock)]),
     w) /\
  fst (fst second) = Returned (fst (fst (SessionInit (provider manager) sid2 (store σ1)))) /\
  forall b1 b2 rest,
    Reader σ = (map Some b1 ++ map Some b2 ++ rest)%list ->
    length b1 = 32%nat -> length b2 = 32%nat ->
    sid = base64.EncodeToString b1 /\
    sid2 = base64.EncodeToString b2 /\
    (b1 <> b2 -> sid <> sid2).
Proof.
  intros Hl Ht Ht2. cbv zeta.
  rewrite (ApiSessionStart_create manager r σ w Ht).
  rewrite ApiSessionCreate_run by exact Hl.
  cbn [fst snd Reader store lock trace].
  split; [reflexivity|]. split; [reflexivity|]. split.
  - rewrite (ApiSessionStart_create manager r2 _ w2 Ht2).
    rewrite ApiSessionCreate_run by reflexivity. reflexivity.
  - intros b1 b2 rest Hr H1 H2. rewrite Hr.
    rewrite (ReadFull_block b1) by exact H1. cbn [snd].
    rewrite !identifier_block by assumption.
    split; [reflexivity|]. split; [reflexivity|].
    intros Hne E. apply Hne. now apply base64_facts.EncodeToString_inj.
Qed.

(** C10.  A value on which query-unescaping fails is read as the empty
    string and the error is dropped: with such a value in its cookie,
    [SessionStart] takes the reading branch and calls [SessionRead] with the
    empty identifier; with such a value in the token header,
    [ApiSessionStart] does what [ApiSessionCreate] does and initialises a new
    session, without any read. *)
Theorem unescape_failure_discarded manager r σ w (v : string) (e : error) :
  lock σ = None ->
  snd (url.QueryUnescape v) = Some e ->
  fst (url.QueryUnescape v) = "" /\
  (forall cookie,
     http.Request_Cookie r (cookieName manager) = (Some cookie, None) ->
     http.Value cookie = v ->
     let res := SessionRead (provider manager) "" (store σ) in
     run (SessionStart manager r) σ w =
       (Returned (fst (fst res)),
        mkWorld (Reader σ) (snd res) None
          (trace σ ++
           [(0%nat, EvLock);
            (0%nat, EvLog (log.Debugf
                             ("get valid session id  %s in request cookie %s" ++ newline)
                             [""; cookieName manager]));
            (0%nat, EvSessionRead "");
            (0%nat, EvUnlock)]),
        w)) /\
  (http.Header_Get (http.Header r) "X-Session-Token" = v ->
   let sid := identifier (Reader σ) in
   let res := SessionInit (provider manager) sid (store σ) in
   run (ApiSessionStart manager r) σ w =
   run (ApiSessionCreate manager)
       (mkWorld (Reader σ) (store σ) (lock σ) (trace σ ++ token_logs r)) w /\
   run (ApiSessionStart manager r) σ w =
     (Returned (fst (fst res)),
      mkWorld (snd (io.ReadFull 32 (Reader σ))) (snd res) None
        ((trace σ ++ token_logs r) ++
         [(0%nat, EvLock);
          (0%nat, EvReadFull 32 (snd (fst (io.ReadFull 32 (Reader σ)))));
          (0%nat, EvLog (log.Debug ["new created sid is "; sid]));
          (0%nat, EvSessionInit sid);
          (0%nat, EvUnlock)]),
      w)).
Proof.
  intros Hl He.
  pose proof (url_facts.QueryUnescape_error v e He) as Hv.
  split; [exact Hv|]. split.
  - intros cookie Hc Hval. cbv zeta.
    rewrite (SessionStart_resume manager r σ w cookie Hl Hc).
    + rewrite Hval, Hv. reflexivity.
    + rewrite Hval. intros ->. discriminate He.
  - intros Hh. cbv zeta.
    assert (Ht : fst (url.QueryUnescape
                        (http.Header_Get (http.Header r) "X-Session-Token")) = "")
      by (rewrite Hh; exact Hv).
    rewrite (ApiSessionStart_create manager r σ w Ht).
    split; [reflexivity|].
    rewrite ApiSessionCreate_run by exact Hl. reflexivity.
Qed.

End TokenProtocol.

(* ===================================================================== *)
(** * The registry *)
(* ===================================================================== *)

Section RegistryFacts.
Context {Sess Store : Type}.

Implicit Types (provides : gmap string (Provider Sess Store)).

(** C7.  [Register] panics when the provider is nil and when the name is
    already registered, and the registry is then what it was; otherwise it
    returns and the registry is the old one with the one mapping from the
    name to the provider added. *)
Theorem Register_guards (name : string) (provider : option (Provider Sess Store))
    provides :
  (provider = None \/ is_Some (provides !! name) ->
   exists msg, Register name provider provides = (Panicked msg, provides)) /\
  (forall p, provider = Some p -> provides !! name = None ->
     Register name provider provides = (Returned tt, <[name := p]> provides) /\
     <[name := p]> provides !! name = Some p /\
     forall other, other <> name ->
       <[name := p]> provides !! other = provides !! other).
Proof.
  split.
  - intros [->|[q Hq]]; unfold Register.
    + eauto.
    + destruct provider as [p|]; [|eauto]. rewrite Hq. eauto.
  - intros p -> Hfree. unfold Register. rewrite Hfree.
    split; [reflexivity|]. split.
    + apply lookup_insert_eq.
    + intros other Hne. apply lookup_insert_ne. congruence.
Qed.

(** C6.  [NewManager] with a name that is not in the registry returns a nil
    manager and an error; with a registered name it returns a manager made
    of the registered provider, the cookie name and the lifetime given, and
    a nil error. *)
Theorem NewManager_lookup provides (provideName cookieName : string) (maxlifetime : Z) :
  (provides !! provideName = None ->
   fst (NewManager provides provideName cookieName maxlifetime) =
     (None, Some (Errorf "session: unknown provide %q (forgotten import?)"
                         [provideName]))) /\
  (forall provider, provides !! provideName = Some provider ->
   fst (NewManager provides provideName cookieName maxlifetime) =
     (Some (mkManager cookieName provider maxlifetime), None)).
Proof.
  unfold NewManager. split.
  - intros ->. reflexivity.
  - intros provider ->. reflexivity.
Qed.

End RegistryFacts.

(* ===================================================================== *)
(** * Calls run alone and calls interleaved *)
(* ===================================================================== *)

Section SeqSteps.
Context {Sess Store : Type}.

Lemma steps_step_l (c1 c2 c3 : list (Thread Sess Store) * World Store) :
  step c1 c2 -> steps c2 c3 -> steps c1 c3.
Proof.
  intros H12 H23. induction H23 as [c2|c2 c3 c4 _ IH H34].
  - eapply steps_step; [apply steps_refl | exact H12].
  - eapply steps_step; [exact (IH H12) | exact H34].
Qed.

(** A call run alone is one of the interleavings: when [exec] returns or
    panics, the thread reaches that state step by step. *)
Lemma exec_steps {A} (p : Prog Sess Store A) (i : nat) (ts : list (Thread Sess Store))
    (σ : World Store) (w : http.ResponseWriter) :
  ts !! i = Some (mkThread A p w) ->
  match exec i p σ w with
  | (Returned a, σ', w') => steps (ts, σ) (<[i := mkThread A (Ret a) w']> ts, σ')
  | (Panicked msg, σ', w') => steps (ts, σ) (<[i := mkThread A (Panic msg) w']> ts, σ')
  | _ => True
  end.
Proof.
  revert ts σ w.
  assert (Hnext : forall (ts : list (Thread Sess Store)) σ w (q p' : Prog Sess Store A) σ' w',
            ts !! i = Some (mkThread A q w) ->
            step_call i (mkThread A q w) σ = Some (mkThread A p' w', σ') ->
            (forall ts2, ts2 !! i = Some (mkThread A p' w') ->
               match exec i p' σ' w' with
               | (Returned a, σ'', w'') =>
                   steps (ts2, σ') (<[i := mkThread A (Ret a) w'']> ts2, σ'')
               | (Panicked msg, σ'', w'') =>
                   steps (ts2, σ') (<[i := mkThread A (Panic msg) w'']> ts2, σ'')
               | _ => True
               end) ->
            match exec i p' σ' w' with
            | (Returned a, σ'', w'') =>
                steps (ts, σ) (<[i := mkThread A (Ret a) w'']> ts, σ'')
            | (Panicked msg, σ'', w'') =>
                steps (ts, σ) (<[i := mkThread A (Panic msg) w'']> ts, σ'')
            | _ => True
            end).
  { intros ts σ w q p' σ' w' Hi Hs IH.
    assert (Hlt : (i < length ts)%nat) by (eapply lookup_lt_Some, Hi).
    specialize (IH (<[i := mkThread A p' w']> ts) (list_lookup_insert_eq _ _ _ Hlt)).
    destruct (exec i p' σ' w') as [[[a|msg|msg|] σ''] w'']; try exact I;
      rewrite list_insert_insert_eq in IH;
      (eapply steps_step_l; [eapply step_at; [exact Hi | exact Hs] | exact IH]). }
  induction p as [a|msg|k IH|k IH|n k IH|pr sid k IH|pr sid k IH|pr sid k IH|c k IH|e k IH];
    intros ts σ w Hi; cbn [exec].
  - rewrite list_insert_id by exact Hi. apply steps_refl.
  - rewrite list_insert_id by exact Hi. apply steps_refl.
  - destruct (do_lock i σ) as [σ'|] eqn:E; [|exact I].
    apply (Hnext ts σ w (Lock k) k σ' w Hi); [cbn; now rewrite E|].
    intros ts2 H2. apply IH, H2.
  - destruct (do_unlock i σ) as [σ'|] eqn:E; [|exact I].
    apply (Hnext ts σ w (Unlock k) k σ' w Hi); [cbn; now rewrite E|].
    intros ts2 H2. apply IH, H2.
  - destruct (do_read i n σ) as [res σ'] eqn:E.
    apply (Hnext ts σ w (ReadRandom n k) (k res) σ' w Hi); [cbn; now rewrite E|].
    intros ts2 H2. apply IH, H2.
  - destruct (do_call i _ _ σ) as [res σ'] eqn:E.
    apply (Hnext ts σ w (Init pr sid k) (k res) σ' w Hi); [cbn; now rewrite E|].
    intros ts2 H2. apply IH, H2.
  - destruct (do_call i _ _ σ) as [res σ'] eqn:E.
    apply (Hnext ts σ w (Read pr sid k) (k res) σ' w Hi); [cbn; now rewrite E|].
    intros ts2 H2. apply IH, H2.
  - destruct (do_call i _ _ σ) as [res σ'] eqn:E.
    apply (Hnext ts σ w (Destroy pr sid k) (k res) σ' w Hi); [cbn; now rewrite E|].
    intros ts2 H2. apply IH, H2.
  - apply (Hnext ts σ w (SetCookie c k) k _ _ Hi); [reflexivity|].
    intros ts2 H2. apply IH, H2.
  - apply (Hnext ts σ w (Log e k) k _ _ Hi); [reflexivity|].
    intros ts2 H2. apply IH, H2.
Qed.

End SeqSteps.

(* ===================================================================== *)
(** * The locking discipline *)
(* ===================================================================== *)

Section Locking.
Context {Sess Store Val : Type} `{!Session Sess Store Val}.

Implicit Types (σ : World Store) (manager : Manager Sess Store).
Implicit Types (tr : list (nat * Effect)).

Lemma locked_body_bind {A B} (p : Prog Sess Store A) (f : A -> Prog Sess Store B) :
  locked_body p -> (forall a, locked_body (f a)) -> locked_body (p ≫= f).
Proof.
  intros Hp Hf. change (locked_body (bind p f)).
  induction p; cbn [bind locked_body] in *; try tauto; auto.
Qed.

Lemma holding_defer {A} (p : Prog Sess Store A) :
  locked_body p -> holding (defer lock_Unlock p).
Proof.
  induction p; cbn [defer locked_body holding bind lock_Unlock released] in *;
    try tauto; auto.
Qed.

Lemma locked_body_sessionId manager : locked_body (sessionId manager).
Proof.
  unfold sessionId. apply locked_body_bind; [intros x; exact I|].
  intros [b [e|]]; exact I.
Qed.

Lemma locked_body_create manager :
  locked_body
    (sid ← sessionId manager;
     log_ (log.Debug ["new created sid is "; sid]);;
     '(session, _) ← provider_SessionInit (provider manager) sid;
     mret session).
Proof.
  apply locked_body_bind; [apply locked_body_sessionId|]. intros sid.
  apply locked_body_bind; [exact I|]. intros _.
  apply locked_body_bind; [intros x; exact I|]. intros [session err]. exact I.
Qed.

Lemma locked_body_destroy manager (sid : string) :
  locked_body
    (log_ (log.Debugf ("destroy session for id %s " ++ newline) [sid]);;
     err ← provider_SessionDestroy (provider manager) sid;
     match err with
     | Some _ => log_ (log.Errorf ("destroy session for id %s failed" ++ newline) [sid])
     | None => mret tt
     end).
Proof.
  apply locked_body_bind; [exact I|]. intros _.
  apply locked_body_bind; [intros x; exact I|]. intros [e|]; exact I.
Qed.

(** Each of the five operations takes the mutex once, performs its
    protected effects while it holds it, and gives it back as its last
    effect. *)
Lemma entering_SessionStart manager r : entering (SessionStart manager r).
Proof.
  unfold SessionStart. cbn [mbind Prog_bind bind lock_Lock entering].
  apply holding_defer.
  destruct (http.Request_Cookie r (cookieName manager)) as [[c|] [e|]].
  1,3: apply locked_body_bind; [exact I|]; intros _.
  1,2: apply locked_body_bind; [apply locked_body_sessionId|]; intros sid.
  1,2: apply locked_body_bind; [exact I|]; intros _.
  1,2: apply locked_body_bind; [intros x; exact I|]; intros [session err].
  1,2: apply locked_body_bind; [exact I|]; intros _; exact I.
  2: exact I.
  destruct (String.eqb (http.Value c) "").
  - apply locked_body_bind; [exact I|]; intros _.
    apply locked_body_bind; [apply locked_body_sessionId|]; intros sid.
    apply locked_body_bind; [exact I|]; intros _.
    apply locked_body_bind; [intros x; exact I|]; intros [session err].
    apply locked_body_bind; [exact I|]; intros _; exact I.
  - destruct (url.QueryUnescape (http.Value c)) as [sid e].
    apply locked_body_bind; [exact I|]; intros _.
    apply locked_body_bind; [intros x; exact I|]; intros [session err]. exact I.
Qed.

Lemma entering_SessionEnd manager (s : option Sess) : entering (SessionEnd manager s).
Proof.
  unfold SessionEnd. cbn [mbind Prog_bind bind lock_Lock entering].
  apply holding_defer. destruct s as [s|]; [|exact I].
  apply locked_body_bind; [exact I|]. intros _. apply locked_body_destroy.
Qed.

Lemma entering_ApiSessionCreate manager : entering (ApiSessionCreate manager).
Proof.
  unfold ApiSessionCreate. cbn [mbind Prog_bind bind lock_Lock entering].
  apply holding_defer, locked_body_create.
Qed.

Lemma entering_ApiSessionEnd manager (s : option Sess) : entering (ApiSessionEnd manager s).
Proof.
  unfold ApiSessionEnd. cbn [mbind Prog_bind bind lock_Lock entering].
  apply holding_defer. destruct s as [s|]; [exact (locked_body_destroy _ _) | exact I].
Qed.

(** A continuation that only returns does not change the shape. *)
Lemma released_bind {A B} (p : Prog Sess Store A) (f : A -> Prog Sess Store B) :
  (forall a, released (f a)) -> released p -> released (bind p f).
Proof. intros Hf. destruct p; cbn [bind released]; auto. Qed.

Lemma holding_bind {A B} (p : Prog Sess Store A) (f : A -> Prog Sess Store B) :
  (forall a, released (f a)) -> holding p -> holding (bind p f).
Proof.
  intros Hf. induction p; cbn [bind holding]; intros Hp; try contradiction; auto.
  apply released_bind; auto.
Qed.

Lemma entering_bind {A B} (p : Prog Sess Store A) (f : A -> Prog Sess Store B) :
  (forall a, released (f a)) -> entering p -> entering (bind p f).
Proof.
  intros Hf. induction p; cbn [bind entering]; intros Hp; try contradiction; auto.
  apply holding_bind; auto.
Qed.

Lemma entering_ApiSessionStart manager r : entering (ApiSessionStart manager r).
Proof.
  unfold ApiSessionStart. cbn [mbind Prog_bind bind log_ entering].
  destruct (url.QueryUnescape _) as [sid e].
  destruct (String.eqb sid "").
  - cbn [bind entering]. apply entering_bind; [intros a; exact I|].
    apply entering_ApiSessionCreate.
  - cbn [bind lock_Lock entering]. apply holding_defer.
    apply locked_body_bind; [intros x; exact I|]. intros [session err]. exact I.
Qed.

(** Every lifecycle call starts in the [entering] shape. *)
Lemma entering_start_call manager (c : Call Sess) : entering (code (start_call manager c)).
Proof.
  destruct c; cbn [start_call code].
  - apply entering_SessionStart.
  - apply entering_SessionEnd.
  - apply entering_ApiSessionStart.
  - apply entering_ApiSessionCreate.
  - apply entering_ApiSessionEnd.
Qed.

(** The three shapes exclude one another. *)
Lemma holding_not_entering {A} (p : Prog Sess Store A) : holding p -> entering p -> False.
Proof. induction p; cbn [holding entering]; auto. Qed.

Lemma holding_not_released {A} (p : Prog Sess Store A) : holding p -> released p -> False.
Proof. destruct p; cbn [holding released]; auto. Qed.

(** Reading a trace with one more effect at its end. *)
Lemma serialized_snoc o tr i (e : Effect) :
  serialized o (tr ++ [(i, e)]) = serialized o tr && allowed (owner_after o tr) i e.
Proof.
  revert o. induction tr as [|[j f] tr IH]; intros o; cbn [app serialized owner_after].
  - now rewrite andb_true_r.
  - now rewrite IH, andb_assoc.
Qed.

Lemma owner_after_snoc o tr i (e : Effect) :
  owner_after o (tr ++ [(i, e)]) = next_owner (owner_after o tr) i e.
Proof.
  revert o. induction tr as [|[j f] tr IH]; intros o; cbn [app owner_after].
  - reflexivity.
  - apply IH.
Qed.

Lemma holds_owner i : holds (Some i) i = true.
Proof. apply Nat.eqb_refl. Qed.

(** The invariant survives a step of one call, given what the step does to
    the trace, to the mutex and to the shape of the call. *)
Lemma invariant_update (ts : list (Thread Sess Store)) σ σ' i (t t' : Thread Sess Store) :
  call_invariant (ts, σ) ->
  ts !! i = Some t ->
  serialized None (trace σ') = true ->
  owner_after None (trace σ') = lock σ' ->
  ((lock σ' = Some i /\ holding (code t')) \/
   (lock σ' <> Some i /\ (entering (code t') \/ released (code t')))) ->
  (forall j, j <> i -> (lock σ = Some j <-> lock σ' = Some j)) ->
  call_invariant (<[i := t']> ts, σ').
Proof.
  intros (_ & _ & Hts) Hi Hser Hown Hnew Hothers.
  split; [exact Hser|]. split; [exact Hown|].
  cbn [fst snd] in *. intros j tj Hj.
  destruct (decide (i = j)) as [<-|Hne].
  - rewrite list_lookup_insert_eq in Hj by (eapply lookup_lt_Some, Hi).
    injection Hj as <-. exact Hnew.
  - rewrite list_lookup_insert_ne in Hj by exact Hne.
    destruct (Hts j tj Hj) as [[Hl Hh]|[Hl Hs]].
    + left. split; [|exact Hh]. apply Hothers; [congruence | exact Hl].
    + right. split; [|exact Hs]. intros Hl'. apply Hl. apply Hothers; [congruence | exact Hl'].
Qed.

Lemma step_call_invariant (ts : list (Thread Sess Store)) σ σ' i (t t' : Thread Sess Store) :
  call_invariant (ts, σ) ->
  ts !! i = Some t ->
  step_call i t σ = Some (t', σ') ->
  call_invariant (<[i := t']> ts, σ').
Proof.
  intros Hinv Hi Hstep.
  pose proof Hinv as (Hser & Hown & Hts). cbn [fst snd] in Hser, Hown, Hts.
  specialize (Hts i t Hi).
  destruct t as [A p w]. unfold step_call in Hstep. cbn [code result resp] in *.
  destruct p as [a|msg|k|k|n k|p sid k|p sid k|p sid k|c k|e k];
    cbn [holding entering released] in Hts; try discriminate Hstep.
  - (* Lock *)
    unfold do_lock in Hstep. destruct (lock σ) as [j|] eqn:Hl; [discriminate Hstep|].
    injection Hstep as <- <-.
    destruct Hts as [[Hl' _]|[_ [Hk|[]]]]; [discriminate Hl'|].
    apply (invariant_update ts σ _ i _ _ Hinv Hi); cbn [emit set_lock trace lock code].
    + rewrite serialized_snoc, Hser, Hown. reflexivity.
    + now rewrite owner_after_snoc.
    + left. split; [reflexivity | exact Hk].
    + intros j Hj. rewrite Hl. split; [discriminate | congruence].
  - (* Unlock *)
    unfold do_unlock in Hstep. destruct (lock σ) as [j|] eqn:Hl; [|discriminate Hstep].
    injection Hstep as <- <-.
    destruct Hts as [[Hl' Hk]|[_ [[]|[]]]]. injection Hl' as ->.
    apply (invariant_update ts σ _ i _ _ Hinv Hi); cbn [emit set_lock trace lock code].
    + rewrite serialized_snoc, Hser, Hown. apply holds_owner.
    + now rewrite owner_after_snoc.
    + right. split; [discriminate | right; exact Hk].
    + intros j Hj. rewrite Hl. split; [congruence | discriminate].
  - (* ReadRandom *)
    unfold do_read in Hstep. destruct (io.ReadFull n (Reader σ)) as [res rd'].
    injection Hstep as <- <-.
    destruct Hts as [[Hl Hk]|[_ [[]|[]]]].
    apply (invariant_update ts σ _ i _ _ Hinv Hi); cbn [emit trace lock code].
    + rewrite serialized_snoc, Hser, Hown, Hl. apply holds_owner.
    + rewrite owner_after_snoc. exact Hown.
    + left. split; [exact Hl | apply Hk].
    + tauto.
  - (* Init *)
    unfold do_call in Hstep. destruct (SessionInit p sid (store σ)) as [res st'].
    injection Hstep as <- <-.
    destruct Hts as [[Hl Hk]|[_ [[]|[]]]].
    apply (invariant_update ts σ _ i _ _ Hinv Hi); cbn [emit trace lock code].
    + rewrite serialized_snoc, Hser, Hown, Hl. apply holds_owner.
    + rewrite owner_after_snoc. exact Hown.
    + left. split; [exact Hl | apply Hk].
    + tauto.
  - (* Read *)
    unfold do_call in Hstep. destruct (SessionRead p sid (store σ)) as [res st'].
    injection Hstep as <- <-.
    destruct Hts as [[Hl Hk]|[_ [[]|[]]]].
    apply (invariant_update ts σ _ i _ _ Hinv Hi); cbn [emit trace lock code].
    + rewrite serialized_snoc, Hser, Hown, Hl. apply holds_owner.
    + rewrite owner_after_snoc. exact Hown.
    + left. split; [exact Hl | apply Hk].
    + tauto.
  - (* Destroy *)
    unfold do_call in Hstep. destruct (SessionDestroy p sid (store σ)) as [res st'].
    injection Hstep as <- <-.
    destruct Hts as [[Hl Hk]|[_ [[]|[]]]].
    apply (invariant_update ts σ _ i _ _ Hinv Hi); cbn [emit trace lock code].
    + rewrite serialized_snoc, Hser, Hown, Hl. apply holds_owner.
    + rewrite owner_after_snoc. exact Hown.
    + left. split; [exact Hl | apply Hk].
    + tauto.
  - (* SetCookie *)
    injection Hstep as <- <-.
    destruct Hts as [[Hl Hk]|[_ [[]|[]]]].
    apply (invariant_update ts σ _ i _ _ Hinv Hi); cbn [emit trace lock code].
    + rewrite serialized_snoc, Hser, Hown, Hl. apply holds_owner.
    + rewrite owner_after_snoc. exact Hown.
    + left. split; [exact Hl | exact Hk].
    + tauto.
  - (* Log *)
    injection Hstep as <- <-.
    apply (invariant_update ts σ _ i _ _ Hinv Hi); cbn [emit trace lock code].
    + rewrite serialized_snoc, Hser. reflexivity.
    + rewrite owner_after_snoc. exact Hown.
    + destruct Hts as [[Hl Hk]|[Hl [Hk|[]]]]; tauto.
    + tauto.
Qed.

Lemma steps_invariant (c c' : list (Thread Sess Store) * World Store) :
  call_invariant c -> steps c c' -> call_invariant c'.
Proof.
  intros Hinv Hsteps. induction Hsteps as [c|c1 c2 c3 _ IH Hstep]; [exact Hinv|].
  specialize (IH Hinv). destruct Hstep as [i ts σ t t' σ' Hi Hstep].
  eapply step_call_invariant; eauto.
Qed.

Lemma schedule_steps sched (c c' : list (Thread Sess Store) * World Store) :
  schedule sched c = Some c' -> steps c c'.
Proof.
  revert c. induction sched as [|i sched IH]; intros [ts σ] E; cbn [schedule fst snd] in E.
  - injection E as <-. apply steps_refl.
  - destruct (ts !! i) as [t|] eqn:Hi; [|discriminate E].
    destruct (step_call i t σ) as [[t' σ']|] eqn:Hs; [|discriminate E].
    eapply steps_step_l; [eapply step_at; eauto | apply IH, E].
Qed.

(** C9.  Each of the five lifecycle operations takes the manager's mutex
    once, before any identifier generation, provider call or cookie
    mutation, and gives it back as its last effect, when it returns and when
    it panics.  So, whatever the scheduler does with any number of lifecycle
    calls on one manager, the trace is serialized: an effect on the random
    source, on the provider or on a response happens only while the call
    that performs it holds the mutex, the mutex is taken only when free and
    released only by its holder, and in the end it is held by the one call,
    if any, that is in its [holding] part. *)
Theorem lifecycle_calls_serialized manager (calls : list (Call Sess)) σ
    (ts' : list (Thread Sess Store)) σ' :
  lock σ = None ->
  trace σ = [] ->
  steps (map (start_call manager) calls, σ) (ts', σ') ->
  (forall c, entering (code (start_call manager c))) /\
  serialized None (trace σ') = true /\
  owner_after None (trace σ') = lock σ' /\
  (forall i t, ts' !! i = Some t -> (lock σ' = Some i <-> holding (code t))).
Proof.
  intros Hl Htr Hsteps.
  split; [apply entering_start_call|].
  assert (Hinit : call_invariant (map (start_call manager) calls, σ)).
  { split; [|split]; cbn [fst snd].
    - rewrite Htr. reflexivity.
    - rewrite Htr, Hl. reflexivity.
    - intros i t Hi. right. rewrite Hl. split; [discriminate|]. left.
      rewrite list_lookup_fmap in Hi.
      destruct (calls !! i) as [c|]; [|discriminate Hi].
      injection Hi as <-. apply entering_start_call. }
  destruct (steps_invariant _ _ Hinit Hsteps) as (Hser & Hown & Hts).
  cbn [fst snd] in *.
  split; [exact Hser|]. split; [exact Hown|].
  intros i t Hi. destruct (Hts i t Hi) as [[Hlk Hh]|[Hlk [He|Hr]]].
  - tauto.
  - split; [contradiction|]. intros Hh. destruct (holding_not_entering _ Hh He).
  - split; [contradiction|]. intros Hh. destruct (holding_not_released _ Hh Hr).
Qed.

End Locking.

(* ===================================================================== *)
(** * The theorems at work on the example provider *)
(* ===================================================================== *)

(** The example provider reads back what it has initialised, so the round
    trip over the cookie holds for it. *)
Lemma memory_provider_reads_back (sid : string) (st : memory.Store) :
  exists s st',
    SessionRead memory.provider sid (snd (SessionInit memory.provider sid st))
      = ((Some s, None), st') /\ SessionID s = sid.
Proof.
  exists (memory.mkSession sid), ((sid, []) :: st).
  cbn. unfold memory.lookup. cbn. rewrite String.eqb_refl. split; reflexivity.
Qed.

Example memory_round_trip :
  exists value σ1,
    snd (run (SessionStart memory.manager memory.no_cookie)
             (memory.world (memory.counting 32 0)) []) =
      [(value ++ "; Path=/; Max-Age=3600; HttpOnly")%string] /\
    value = "sid=AAECAwQFBgcICQoLDA0ODxAREhMUFRYXGBkaGxwdHh8%3D" /\
    snd (fst (run (SessionStart memory.manager memory.no_cookie)
                  (memory.world (memory.counting 32 0)) [])) = σ1 /\
    exists s,
      fst (fst (run (SessionStart memory.manager
                       (memory.with_cookie "sid"
                          "AAECAwQFBgcICQoLDA0ODxAREhMUFRYXGBkaGxwdHh8%3D")) σ1 [])) =
        Returned (Some s) /\
      SessionID s = "AAECAwQFBgcICQoLDA0ODxAREhMUFRYXGBkaGxwdHh8=".
Proof.
  destruct (SessionStart_round_trip memory.manager memory.no_cookie
              (memory.with_cookie "sid" "AAECAwQFBgcICQoLDA0ODxAREhMUFRYXGBkaGxwdHh8%3D")
              (memory.world (memory.counting 32 0)) [] []
              (map byte_of_Z (map Z.of_nat (seq 0 32))) [])
    as (value & σ1 & Hw & Hσ & Hv & Hne & Hsecond).
  - vm_compute. reflexivity.
  - reflexivity.
  - vm_compute. discriminate.
  - vm_compute. reflexivity.
  - apply memory_provider_reads_back.
  - assert (Hv' : value = "AAECAwQFBgcICQoLDA0ODxAREhMUFRYXGBkaGxwdHh8%3D")
      by (rewrite Hv; vm_compute; reflexivity).
    clear Hv. subst value.
    exists "sid=AAECAwQFBgcICQoLDA0ODxAREhMUFRYXGBkaGxwdHh8%3D", σ1.
    split; [rewrite Hw; vm_compute; reflexivity|]. split; [reflexivity|].
    split; [exact Hσ|].
    destruct (Hsecond (http.mkCookie "sid" "AAECAwQFBgcICQoLDA0ODxAREhMUFRYXGBkaGxwdHh8%3D"
                                     "" false 0))
      as (s & σ2 & Hrun & _ & Hid); [reflexivity | reflexivity |].
    exists s. rewrite Hrun. split; [reflexivity|].
    rewrite Hid. vm_compute. reflexivity.
Defined.

(** A first call without cookie answers with the escaped identifier; a call
    that brings the cookie of a stored session reads that session. *)
Lemma SessionStart_branches_witness :
  lock (memory.world (memory.counting 32 0)) = None /\
  int64_range (maxlifetime memory.manager) /\
  snd (run (SessionStart memory.manager memory.no_cookie)
           (memory.world (memory.counting 32 0)) []) =
    ["sid=AAECAwQFBgcICQoLDA0ODxAREhMUFRYXGBkaGxwdHh8%3D; Path=/; Max-Age=3600; HttpOnly"] /\
  fst (fst (run (SessionStart memory.manager (memory.with_cookie "sid" "abc%3D"))
                (memory.stored "abc=") [])) =
    Returned (Some (memory.mkSession "abc=")).
Proof.
  assert (H1 : lock (memory.world (memory.counting 32 0)) = None) by reflexivity.
  assert (H2 : int64_range (maxlifetime memory.manager))
    by (unfold int64_range; cbn; lia).
  split; [exact H1|]. split; [exact H2|]. split.
  - destruct (SessionStart_branches memory.manager memory.no_cookie
                (memory.world (memory.counting 32 0)) [] H1 H2) as [Hcreate _].
    rewrite Hcreate; [vm_compute; reflexivity|].
    left. vm_compute. discriminate.
  - destruct (SessionStart_branches memory.manager (memory.with_cookie "sid" "abc%3D")
                (memory.stored "abc=") [] eq_refl H2) as [_ Hresume].
    rewrite (Hresume (http.mkCookie "sid" "abc%3D" "" false 0));
      [vm_compute; reflexivity | vm_compute; reflexivity | discriminate].
Defined.

(** C1, as stated, fails.  With a cookie name that is not a valid one (here
    with a space in it, or empty), [SessionStart] creates the session and
    the response gets no cookie at all; with a negative lifetime the cookie
    goes out with [Max-Age=0], with the lifetime zero without [Max-Age]:
    in neither case is its max-age the configured lifetime. *)
Lemma SessionStart_cookie_not_as_configured :
  (let first := run (SessionStart memory.spaced memory.no_cookie)
                    (memory.world (memory.counting 32 0)) [] in
   fst (fst first) =
     Returned (Some (memory.mkSession "AAECAwQFBgcICQoLDA0ODxAREhMUFRYXGBkaGxwdHh8=")) /\
   snd first = []) /\
  snd (run (SessionStart memory.unnamed memory.no_cookie)
           (memory.world (memory.counting 32 0)) []) = [] /\
  snd (run (SessionStart memory.lapsed memory.no_cookie)
           (memory.world (memory.counting 32 0)) []) =
    ["sid=AAECAwQFBgcICQoLDA0ODxAREhMUFRYXGBkaGxwdHh8%3D; Path=/; Max-Age=0; HttpOnly"] /\
  maxlifetime memory.lapsed = -5 /\
  snd (run (SessionStart memory.momentary memory.no_cookie)
           (memory.world (memory.counting 32 0)) []) =
    ["sid=AAECAwQFBgcICQoLDA0ODxAREhMUFRYXGBkaGxwdHh8%3D; Path=/; HttpOnly"].
Proof.
  vm_compute. repeat split.
Qed.

(** C3, as stated, fails.  With a cookie name that is not a valid one,
    [SessionEnd] destroys the session and the response gets no cookie: the
    browser is not told to drop anything. *)
Lemma SessionEnd_cookie_not_sent :
  (let last := run (SessionEnd memory.spaced (Some (memory.mkSession "abc=")))
                   (memory.stored "abc=") [] in
   fst (fst last) = Returned tt /\
   store (snd (fst last)) = [] /\
   snd last = []) /\
  snd (run (SessionEnd memory.unnamed (Some (memory.mkSession "abc=")))
           (memory.stored "abc=") []) = [].
Proof.
  vm_compute. repeat split.
Qed.

(** The provider refuses to destroy; the cookie is cleared all the same. *)
Lemma SessionEnd_clears_cookie_witness :
  lock (memory.stored "abc=") = None /\
  fst (SessionDestroy memory.stubborn "abc=" [("abc=", [])]) = Some memory.read_only /\
  run (SessionEnd (mkManager "sid" memory.stubborn 3600) (Some (memory.mkSession "abc=")))
      (memory.stored "abc=") [] =
    (Returned tt,
     mkWorld [] [("abc=", [])] None
       [(0%nat, EvLock);
        (0%nat, EvSetCookie (http.mkCookie "sid" "abc%3D" "/" true (-1)));
        (0%nat, EvLog (log.Debugf ("destroy session for id %s " ++ newline) ["abc="]));
        (0%nat, EvSessionDestroy "abc=");
        (0%nat, EvLog (log.Errorf ("destroy session for id %s failed" ++ newline) ["abc="]));
        (0%nat, EvUnlock)],
     ["sid=abc%3D; Path=/; Max-Age=0; HttpOnly"]).
Proof.
  split; [reflexivity|]. split; [reflexivity|].
  destruct (SessionEnd_clears_cookie (mkManager "sid" memory.stubborn 3600)
              (memory.mkSession "abc=") (memory.stored "abc=") [] eq_refl)
    as [_ Hrun].
  rewrite Hrun. vm_compute. reflexivity.
Defined.

(** C4, as stated, fails: on a random source that delivers the same 32
    bytes twice, two calls of [ApiSessionStart] without token return
    sessions with one and the same identifier; so do two calls on an
    exhausted source, with the empty identifier. *)
Lemma ApiSessionStart_identifiers_collide :
  fst (url.QueryUnescape
         (http.Header_Get (http.Header memory.no_cookie) "X-Session-Token")) = "" /\
  (let σ0 := memory.world (memory.counting 32 0 ++ memory.counting 32 0)%list in
   let first := run (ApiSessionStart memory.manager memory.no_cookie) σ0 [] in
   let second :=
     run (ApiSessionStart memory.manager memory.no_cookie) (snd (fst first)) [] in
   fst (fst first) =
     Returned (Some (memory.mkSession "AAECAwQFBgcICQoLDA0ODxAREhMUFRYXGBkaGxwdHh8=")) /\
   fst (fst second) =
     Returned (Some (memory.mkSession "AAECAwQFBgcICQoLDA0ODxAREhMUFRYXGBkaGxwdHh8="))) /\
  (let σ0 := memory.world [] in
   let first := run (ApiSessionStart memory.manager memory.no_cookie) σ0 [] in
   let second :=
     run (ApiSessionStart memory.manager memory.no_cookie) (snd (fst first)) [] in
   fst (fst first) = Returned (Some (memory.mkSession "")) /\
   fst (fst second) = Returned (Some (memory.mkSession ""))).
Proof.
  vm_compute. repeat split.
Qed.

(** Two calls without token on a source that delivers 64 different
    bytes. *)
Lemma ApiSessionStart_empty_token_witness :
  lock (memory.world (memory.counting 64 0)) = None /\
  fst (url.QueryUnescape
         (http.Header_Get (http.Header memory.no_cookie) "X-Session-Token")) = "" /\
  run (ApiSessionStart memory.manager memory.no_cookie)
      (memory.world (memory.counting 64 0)) [] =
  run (ApiSessionCreate memory.manager)
      (mkWorld (memory.counting 64 0) [] None (token_logs memory.no_cookie)) [] /\
  identifier (Reader (memory.world (memory.counting 64 0))) <>
  identifier (Reader (snd (fst (run (ApiSessionStart memory.manager memory.no_cookie)
                                    (memory.world (memory.counting 64 0)) [])))).
Proof.
  assert (H1 : lock (memory.world (memory.counting 64 0)) = None) by reflexivity.
  assert (H2 : fst (url.QueryUnescape
                      (http.Header_Get (http.Header memory.no_cookie)
                                       "X-Session-Token")) = "") by reflexivity.
  split; [exact H1|]. split; [exact H2|].
  destruct (ApiSessionStart_empty_token memory.manager memory.no_cookie memory.no_cookie
              (memory.world (memory.counting 64 0)) [] [] H1 H2 H2)
    as (Hsame & _ & _ & Hdistinct).
  split; [exact Hsame|].
  destruct (Hdistinct (map byte_of_Z (map Z.of_nat (seq 0 32)))
                      (map byte_of_Z (map Z.of_nat (seq 32 32))) [])
    as (_ & _ & Hne); [vm_compute; reflexivity | reflexivity | reflexivity |].
  apply Hne. vm_compute. discriminate.
Defined.

(** A cookie and a token with the malformed escape [%zz]. *)
Lemma unescape_failure_discarded_witness :
  lock (memory.world (memory.counting 32 0)) = None /\
  snd (url.QueryUnescape "%zz") = Some (EscapeError "%zz") /\
  fst (fst (run (SessionStart memory.manager (memory.with_cookie "sid" "%zz"))
                (memory.world (memory.counting 32 0)) [])) = Returned None /\
  fst (fst (run (ApiSessionStart memory.manager (memory.with_token "%zz"))
                (memory.world (memory.counting 32 0)) [])) =
    Returned (Some (memory.mkSession "AAECAwQFBgcICQoLDA0ODxAREhMUFRYXGBkaGxwdHh8=")).
Proof.
  assert (H1 : lock (memory.world (memory.counting 32 0)) = None) by reflexivity.
  assert (H2 : snd (url.QueryUnescape "%zz") = Some (EscapeError "%zz")) by reflexivity.
  split; [exact H1|]. split; [exact H2|]. split.
  - destruct (unescape_failure_discarded memory.manager (memory.with_cookie "sid" "%zz")
                (memory.world (memory.counting 32 0)) [] "%zz" _ H1 H2)
      as (_ & Hcookie & _).
    rewrite (Hcookie (http.mkCookie "sid" "%zz" "" false 0)); reflexivity.
  - destruct (unescape_failure_discarded memory.manager (memory.with_token "%zz")
                (memory.world (memory.counting 32 0)) [] "%zz" _ H1 H2)
      as (_ & _ & Htoken).
    destruct (Htoken eq_refl) as [_ Hrun]. rewrite Hrun. vm_compute. reflexivity.
Defined.

(** A registry with the one name ["memory"]. *)
Lemma Register_guards_witness :
  (exists msg,
     Register "memory" (Some memory.stubborn) {[ "memory" := memory.provider ]} =
       (Panicked msg, {[ "memory" := memory.provider ]})) /\
  (exists msg,
     Register (Sess:=memory.SessionStore) (Store:=memory.Store) "memory" None ∅ =
       (Panicked msg, ∅)) /\
  Register "memory" (Some memory.provider) ∅ =
    (Returned tt, <[ "memory" := memory.provider ]> ∅).
Proof.
  split; [|split].
  - apply (Register_guards "memory" (Some memory.stubborn)
             {[ "memory" := memory.provider ]}).
    right. rewrite lookup_singleton_eq. eexists. reflexivity.
  - apply (Register_guards "memory" None ∅). left. reflexivity.
  - destruct (Register_guards "memory" (Some memory.provider) ∅) as [_ Hadd].
    destruct (Hadd memory.provider eq_refl (lookup_empty _)) as [Hrun _].
    exact Hrun.
Defined.

Lemma NewManager_lookup_witness :
  fst (NewManager {[ "memory" := memory.provider ]} "redis" "sid" 3600) =
    (None, Some (Errorf "session: unknown provide %q (forgotten import?)" ["redis"])) /\
  fst (NewManager {[ "memory" := memory.provider ]} "memory" "sid" 3600) =
    (Some memory.manager, None).
Proof.
  split.
  - apply (NewManager_lookup {[ "memory" := memory.provider ]} "redis" "sid" 3600).
    apply lookup_singleton_ne. discriminate.
  - apply (NewManager_lookup {[ "memory" := memory.provider ]} "memory" "sid" 3600).
    apply lookup_singleton_eq.
Defined.

(** A [SessionStart] and an [ApiSessionStart] interleaved: the token call
    logs while the cookie call holds the mutex, and takes the mutex after
    it. *)
Lemma lifecycle_calls_serialized_witness :
  let calls := [CallSessionStart memory.no_cookie; CallApiSessionStart memory.no_cookie] in
  let σ := memory.world (memory.counting 64 0) in
  lock σ = None /\ trace σ = [] /\
  exists ts' σ',
    schedule [1; 0; 1; 0; 0; 0; 0; 0; 0; 1; 1; 1; 1; 1]%nat
             (map (start_call memory.manager) calls, σ) = Some (ts', σ') /\
    length (trace σ') = 14%nat /\
    serialized None (trace σ') = true /\
    lock σ' = None.
Proof.
  cbv zeta. split; [reflexivity|]. split; [reflexivity|].
  destruct (schedule [1; 0; 1; 0; 0; 0; 0; 0; 0; 1; 1; 1; 1; 1]%nat
              (map (start_call memory.manager)
                   [CallSessionStart memory.no_cookie; CallApiSessionStart memory.no_cookie],
               memory.world (memory.counting 64 0)))
    as [[ts' σ']|] eqn:E; [|vm_compute in E; discriminate E].
  exists ts', σ'. split; [reflexivity|].
  destruct (lifecycle_calls_serialized memory.manager
              [CallSessionStart memory.no_cookie; CallApiSessionStart memory.no_cookie]
              (memory.world (memory.counting 64 0)) ts' σ' eq_refl eq_refl
              (schedule_steps _ _ _ E)) as (_ & Hser & Hown & _).
  split; [|split; [exact Hser|]].
  - vm_compute in E. injection E as _ <-. reflexivity.
  - vm_compute in E. injection E as _ <-. reflexivity.
Defined.

(* ===================================================================== *)
(** * More of the token protocol, the registry and the identifiers *)
(* ===================================================================== *)

Section MoreSequential.
Context {Sess Store Val : Type} `{!Session Sess Store Val}.

Implicit Types (σ : World Store) (w : http.ResponseWriter).
Implicit Types (manager : Manager Sess Store) (r : http.Request).

(** X2.  [ApiSessionEnd] on a session calls [SessionDestroy] with the
    session's identifier, once; it returns normally whether that call fails
    or not, a failure adds one error line to the log; the random source and
    the response are left as they were and the mutex is free again. *)
Theorem ApiSessionEnd_destroys manager (s : Sess) σ w :
  lock σ = None ->
  let sid := SessionID s in
  let res := SessionDestroy (provider manager) sid (store σ) in
  let failure :=
    match fst res with
    | Some _ =>
        [(0%nat, EvLog (log.Errorf ("destroy session for id %s failed" ++ newline) [sid]))]
    | None => []
    end in
  run (ApiSessionEnd manager (Some s)) σ w =
    (Returned tt,
     mkWorld (Reader σ) (snd res) None
       (trace σ ++
        [(0%nat, EvLock);
         (0%nat, EvLog (log.Debugf ("destroy session for id %s " ++ newline) [sid]));
         (0%nat, EvSessionDestroy sid)] ++ failure ++ [(0%nat, EvUnlock)]),
     w).
Proof.
  intros Hl. cbv zeta. unfold run, ApiSessionEnd.
  destruct (SessionDestroy (provider manager) (SessionID s) (store σ)) as [err st'] eqn:Ed.
  exec_all. rewrite Ed. cbn [fst snd].
  destruct err as [e|]; exec_done.
Qed.

(** X3.  With a nil session, [SessionEnd] and [ApiSessionEnd] panic on
    [SessionID()]: the provider is not called, no cookie is set, and the
    deferred unlock has freed the mutex when the panic leaves the call. *)
Theorem nil_session_panics manager σ w :
  lock σ = None ->
  run (SessionEnd manager None) σ w =
    (Panicked nil_dereference,
     mkWorld (Reader σ) (store σ) None
             (trace σ ++ [(0%nat, EvLock); (0%nat, EvUnlock)]),
     w) /\
  run (ApiSessionEnd manager None) σ w =
    (Panicked nil_dereference,
     mkWorld (Reader σ) (store σ) None
             (trace σ ++ [(0%nat, EvLock); (0%nat, EvUnlock)]),
     w).
Proof.
  intros Hl. split.
  - unfold run, SessionEnd. exec_done.
  - unfold run, ApiSessionEnd. exec_done.
Qed.

End MoreSequential.

Section MoreRegistry.
Context {Sess Store : Type}.

Implicit Types (provides : gmap string (Provider Sess Store)).

(** X4.  After [Register(name, provider)] with a provider that is not nil,
    [NewManager] with that name succeeds, whatever [Register] did: the
    manager has the provider that was registered under the name before, if
    there was one ([Register] has panicked then), and the new provider
    otherwise. *)
Theorem Register_then_NewManager (name cookieName : string) (p : Provider Sess Store)
    provides (maxlifetime : Z) :
  fst (NewManager (snd (Register name (Some p) provides)) name cookieName maxlifetime) =
    (Some (mkManager cookieName (default p (provides !! name)) maxlifetime), None).
Proof.
  unfold Register, NewManager.
  destruct (provides !! name) as [q|] eqn:E; cbn [snd default].
  - rewrite E. reflexivity.
  - rewrite lookup_insert_eq. reflexivity.
Qed.

Lemma Register_keeps (name name' : string) (provider : option (Provider Sess Store))
    provides (q : Provider Sess Store) :
  provides !! name' = Some q ->
  snd (Register name provider provides) !! name' = Some q.
Proof.
  intros Hq. unfold Register.
  destruct provider as [p|]; [|exact Hq].
  destruct (provides !! name) as [p'|] eqn:E; cbn [snd]; [exact Hq|].
  rewrite lookup_insert_ne; [exact Hq|]. intros ->. congruence.
Qed.

(** X5.  The registry only grows: a name that is registered keeps its
    provider through any run of later [Register] calls, with any names and
    providers, nil and duplicates included; and a name that is in the map
    after the run and was not before is one of the names of the run. *)
Theorem RegisterAll_keeps (calls : list (string * option (Provider Sess Store)))
    provides :
  (forall name q, provides !! name = Some q -> RegisterAll calls provides !! name = Some q) /\
  (forall name, provides !! name = None -> is_Some (RegisterAll calls provides !! name) ->
     In name (map fst calls)).
Proof.
  unfold RegisterAll. revert provides.
  induction calls as [|[n p] calls IH]; intros provides; cbn [fold_left map fst snd].
  - split; [auto|]. intros name Hn [q Hq]. congruence.
  - destruct (IH (snd (Register n p provides))) as [IH1 IH2]. split.
    + intros name q Hq. apply IH1. now apply Register_keeps.
    + intros name Hn Hs. destruct (decide (n = name)) as [->|Hne]; [now left|].
      right. apply IH2; [|exact Hs].
      unfold Register. destruct p as [p|]; [|exact Hn].
      destruct (provides !! n); cbn [snd]; [exact Hn|].
      rewrite lookup_insert_ne; [exact Hn | exact Hne].
Qed.

End MoreRegistry.

Lemma EncodeToString_length (src : list byte) :
  String.length (base64.EncodeToString src) = (4 * ((length src + 2) / 3))%nat.
Proof.
  induction src as [|a|a b|a b c rest IH] using base64_facts.list_ind3;
    try reflexivity.
  cbn [base64.EncodeToString String.length length]. rewrite IH.
  replace (S (S (S (length rest))) + 2)%nat with ((length rest + 2) + 1 * 3)%nat by lia.
  rewrite Nat.div_add by lia. lia.
Qed.

(** A text over the URL-safe alphabet and the padding has nothing to
    unescape. *)
Lemma url_safe_plain (c : ascii) :
  base64.url_safe c = true -> Ascii.eqb c "%" = false /\ Ascii.eqb c "+" = false.
Proof.
  destruct (Ascii.eqb_spec c "%") as [->|_]; [vm_compute; discriminate|].
  destruct (Ascii.eqb_spec c "+") as [->|_]; [vm_compute; discriminate|].
  auto.
Qed.

Lemma QueryUnescape_url_safe (s : string) :
  string_forall base64.url_safe s = true -> url.QueryUnescape s = (s, None).
Proof.
  intros Hs.
  assert (H : url.malformed s = None /\ url.decode s = s).
  { induction s as [|c s IH]; [split; reflexivity|].
    cbn [string_forall] in Hs. apply andb_prop in Hs as [Hc Hs].
    destruct (url_safe_plain c Hc) as [H1 H2]. destruct (IH Hs) as [IHm IHd].
    cbn [url.malformed url.decode]. rewrite H1, H2, IHm, IHd. split; reflexivity. }
  unfold url.QueryUnescape. destruct H as [-> ->]. reflexivity.
Qed.

Section MoreIdentifiers.
Context {Sess Store Val : Type} `{!Session Sess Store Val}.

Implicit Types (σ : World Store) (w : http.ResponseWriter).
Implicit Types (manager : Manager Sess Store) (r : http.Request).

(** X6.  When the random source delivers, [sessionId] takes exactly the
    next 32 bytes from it and touches nothing else; the identifier is their
    URL-safe base64 text: 44 characters of the alphabet and the padding,
    which decode to these 32 bytes and which query-unescaping leaves as they
    are. *)
Theorem sessionId_delivers manager σ w (b : list byte) (rest : rand.Reader) :
  Reader σ = (map Some b ++ rest)%list ->
  length b = 32%nat ->
  let id := base64.EncodeToString b in
  run (sessionId manager) σ w =
    (Returned id,
     mkWorld rest (store σ) (lock σ) (trace σ ++ [(0%nat, EvReadFull 32 None)]), w) /\
  String.length id = 44%nat /\
  string_forall base64.url_safe id = true /\
  base64.DecodeString id = Some b /\
  url.QueryUnescape id = (id, None).
Proof.
  intros Hr Hlen id. subst id. split; [|split; [|split; [|split]]].
  - unfold run. rewrite exec_sessionId, Hr, identifier_block, ReadFull_block by exact Hlen.
    reflexivity.
  - rewrite EncodeToString_length, Hlen. reflexivity.
  - apply base64_facts.EncodeToString_alphabet.
  - apply base64_facts.DecodeString_EncodeToString.
  - apply QueryUnescape_url_safe, base64_facts.EncodeToString_alphabet.
Qed.

Lemma released_settles hang {A} (p : Prog Sess Store A) i σ w :
  released p -> lock σ = None -> settles hang i (exec_hang hang i p σ w).
Proof.
  destruct p; cbn [released]; try contradiction; intros _ Hl; exact Hl.
Qed.

Lemma holding_settles hang {A} (p : Prog Sess Store A) i σ w :
  holding p -> lock σ = Some i -> settles hang i (exec_hang hang i p σ w).
Proof.
  revert σ w.
  induction p as [a|msg|k IH|k IH|n k IH|pr sid k IH|pr sid k IH|pr sid k IH|c k IH|e k IH];
    intros σ w Hp Hl; cbn [holding] in Hp; try contradiction; cbn [exec_hang].
  - unfold do_unlock. rewrite Hl. now apply released_settles.
  - unfold do_read. destruct (io.ReadFull n (Reader σ)) as [res rd']. now apply IH.
  - destruct (hang (EvSessionInit sid) (store σ)) eqn:Eh; [repeat split; assumption|].
    unfold do_call. destruct (SessionInit pr sid (store σ)) as [res st']. now apply IH.
  - destruct (hang (EvSessionRead sid) (store σ)) eqn:Eh; [repeat split; assumption|].
    unfold do_call. destruct (SessionRead pr sid (store σ)) as [res st']. now apply IH.
  - destruct (hang (EvSessionDestroy sid) (store σ)) eqn:Eh; [repeat split; assumption|].
    unfold do_call. destruct (SessionDestroy pr sid (store σ)) as [res st']. now apply IH.
  - now apply IH.
  - now apply IH.
Qed.

Lemma entering_settles hang {A} (p : Prog Sess Store A) i σ w :
  entering p -> lock σ = None -> settles hang i (exec_hang hang i p σ w).
Proof.
  revert σ w.
  induction p as [a|msg|k IH|k IH|n k IH|pr sid k IH|pr sid k IH|pr sid k IH|c k IH|e k IH];
    intros σ w Hp Hl; cbn [entering] in Hp; try contradiction; cbn [exec_hang].
  - unfold do_lock. rewrite Hl. now apply holding_settles.
  - now apply IH.
Qed.

(** When every provider call returns, [exec_hang] is [exec]. *)
Lemma exec_hang_returns hang {A} (p : Prog Sess Store A) i σ w :
  (forall e st, hang e st = false) ->
  exec_hang hang i p σ w =
    (Ended (fst (fst (exec i p σ w))), snd (fst (exec i p σ w)), snd (exec i p σ w)).
Proof.
  intros Hh. revert σ w.
  induction p as [a|msg|k IH|k IH|n k IH|pr sid k IH|pr sid k IH|pr sid k IH|c k IH|e k IH];
    intros σ w; cbn [exec_hang exec]; rewrite ?Hh; try reflexivity.
  - destruct (do_lock i σ); [apply IH | reflexivity].
  - destruct (do_unlock i σ); [apply IH | reflexivity].
  - destruct (do_read i n σ). apply IH.
  - destruct (do_call i _ _ σ). apply IH.
  - destruct (do_call i _ _ σ). apply IH.
  - destruct (do_call i _ _ σ). apply IH.
  - apply IH.
  - apply IH.
Qed.


(** A call that has not taken the mutex yet, when another holds it: it
    waits, and all it has done is to log. *)
Lemma entering_waits {A} (p : Prog Sess Store A) i j σ w :
  entering p -> lock σ = Some j ->
  exists logs,
    exec i p σ w =
      (Blocked, mkWorld (Reader σ) (store σ) (lock σ) (trace σ ++ logs), w) /\
    Forall is_log logs.
Proof.
  revert σ w.
  induction p as [a|msg|k IH|k IH|n k IH|pr sid k IH|pr sid k IH|pr sid k IH|c k IH|e k IH];
    intros σ w Hp Hl; cbn [entering] in Hp; try contradiction; cbn [exec].
  - destruct σ as [rd st l tr]. cbn [lock] in Hl. subst l.
    exists []. unfold do_lock. cbn [lock Reader store trace].
    rewrite app_nil_r. split; [reflexivity | constructor].
  - destruct (IH (emit i (EvLog e) σ) w Hp Hl) as (logs & E & Hlogs).
    exists ((i, EvLog e) :: logs). split.
    + rewrite E. cbn [emit Reader store lock trace]. now rewrite <- app_assoc.
    + constructor; [exact I | exact Hlogs].
Qed.

(** X8.  Whichever lifecycle operation is called while another call holds
    the mutex, it waits: run on its own it never returns, and up to there it
    has read no random byte, called no provider method and set no cookie;
    the most it has done is to write log lines. *)
Theorem lifecycle_call_waits manager (c : Call Sess) (j : nat) σ w :
  lock σ = Some j ->
  exists logs,
    run (code (start_call manager c)) σ w =
      (Blocked, mkWorld (Reader σ) (store σ) (Some j) (trace σ ++ logs), w) /\
    Forall is_log logs.
Proof.
  intros Hl.
  destruct (entering_waits _ 0%nat j σ w (entering_start_call manager c) Hl)
    as (logs & E & Hlogs).
  exists logs. rewrite <- Hl. split; assumption.
Qed.

Lemma cookie_free_exec {A} (p : Prog Sess Store A) i σ w :
  cookie_free p -> snd (exec i p σ w) = w.
Proof.
  revert σ w.
  induction p as [a|msg|k IH|k IH|n k IH|pr sid k IH|pr sid k IH|pr sid k IH|c k IH|e k IH];
    intros σ w Hp; cbn [cookie_free] in Hp; try contradiction; cbn [exec]; try reflexivity.
  - destruct (do_lock i σ); [now apply IH | reflexivity].
  - destruct (do_unlock i σ); [now apply IH | reflexivity].
  - destruct (do_read i n σ). now apply IH.
  - destruct (do_call i _ _ σ). now apply IH.
  - destruct (do_call i _ _ σ). now apply IH.
  - destruct (do_call i _ _ σ). now apply IH.
  - now apply IH.
Qed.

Lemma cookie_free_bind {A B} (p : Prog Sess Store A) (f : A -> Prog Sess Store B) :
  cookie_free p -> (forall a, cookie_free (f a)) -> cookie_free (p ≫= f).
Proof.
  intros Hp Hf. change (cookie_free (bind p f)).
  induction p; cbn [bind cookie_free] in *; try tauto; auto.
Qed.

Lemma cookie_free_defer {A} (p : Prog Sess Store A) :
  cookie_free p -> cookie_free (defer lock_Unlock p).
Proof.
  induction p; cbn [defer cookie_free bind lock_Unlock] in *; try tauto; auto.
Qed.

Lemma cookie_free_ApiSessionCreate manager : cookie_free (ApiSessionCreate manager).
Proof.
  unfold ApiSessionCreate. cbn [mbind Prog_bind bind lock_Lock cookie_free].
  apply cookie_free_defer.
  apply cookie_free_bind.
  - unfold sessionId. apply cookie_free_bind; [intros x; exact I|].
    intros [b [e|]]; exact I.
  - intros sid. apply cookie_free_bind; [exact I|]. intros _.
    apply cookie_free_bind; [intros x; exact I|]. intros [session err]. exact I.
Qed.

Lemma cookie_free_ApiSessionStart manager r : cookie_free (ApiSessionStart manager r).
Proof.
  unfold ApiSessionStart. cbn [mbind Prog_bind bind log_ cookie_free].
  destruct (url.QueryUnescape _) as [sid e].
  destruct (String.eqb sid "").
  - cbn [mbind Prog_bind bind log_ cookie_free].
    apply (cookie_free_bind (ApiSessionCreate manager)).
    + apply cookie_free_ApiSessionCreate.
    + intros a. exact I.
  - cbn [mbind Prog_bind bind lock_Lock cookie_free]. apply cookie_free_defer.
    apply cookie_free_bind; [intros x; exact I|]. intros [session err]. exact I.
Qed.

Lemma cookie_free_ApiSessionEnd manager (s : option Sess) :
  cookie_free (ApiSessionEnd manager s).
Proof.
  unfold ApiSessionEnd. cbn [mbind Prog_bind bind lock_Lock cookie_free].
  apply cookie_free_defer. destruct s as [s|]; [|exact I].
  apply cookie_free_bind; [exact I|]. intros _.
  apply cookie_free_bind; [intros x; exact I|]. intros [e|]; exact I.
Qed.

(** X12.  The three operations of the token protocol hand no cookie to the
    response: whatever the request, the session, the state of the mutex, of
    the random source and of the provider, the response after the call is
    the response before it. *)
Theorem token_protocol_sets_no_cookie manager r (s : option Sess) σ w :
  snd (run (ApiSessionStart manager r) σ w) = w /\
  snd (run (ApiSessionCreate manager) σ w) = w /\
  snd (run (ApiSessionEnd manager s) σ w) = w.
Proof.
  unfold run. split; [|split].
  - apply cookie_free_exec, cookie_free_ApiSessionStart.
  - apply cookie_free_exec, cookie_free_ApiSessionCreate.
  - apply cookie_free_exec, cookie_free_ApiSessionEnd.
Qed.

End MoreIdentifiers.

Section MoreProtocols.
Context {Sess Store Val : Type} `{!Session Sess Store Val}.

Implicit Types (σ : World Store) (w : http.ResponseWriter).
Implicit Types (manager : Manager Sess Store) (r : http.Request).

(** X1.  [ApiSessionStart] with a token: when the [X-Session-Token] header
    query-unescapes to a non-empty identifier, and so when it is the
    query-escaped form of one, the call takes the mutex, calls [SessionRead]
    with that identifier and returns the session of that call, nil
    included; it reads no random byte, initialises no session and leaves the
    response as it was. *)
Theorem ApiSessionStart_reads_token manager r σ w (sid : string) :
  lock σ = None ->
  sid <> "" ->
  fst (url.QueryUnescape (http.Header_Get (http.Header r) "X-Session-Token")) = sid \/
  http.Header_Get (http.Header r) "X-Session-Token" = url.QueryEscape sid ->
  let res := SessionRead (provider manager) sid (store σ) in
  run (ApiSessionStart manager r) σ w =
    (Returned (fst (fst res)),
     mkWorld (Reader σ) (snd res) None
       (trace σ ++
        [(0%nat, EvLog (log.Debugf "get session token is %s"
                          [http.Header_Get (http.Header r) "X-Session-Token"]));
         (0%nat, EvLock);
         (0%nat, EvSessionRead sid);
         (0%nat, EvUnlock)]),
     w).
Proof.
  intros Hl Hne Hh res. subst res.
  assert (Hu : fst (url.QueryUnescape (http.Header_Get (http.Header r) "X-Session-Token"))
               = sid).
  { destruct Hh as [Hh|Hh]; [exact Hh|].
    now rewrite Hh, url_facts.QueryUnescape_QueryEscape. }
  rewrite ApiSessionStart_resume; [|exact Hl | now rewrite Hu].
  rewrite Hu. reflexivity.
Qed.

(** X10.  The round trip over the token transport.  When the random source
    delivers and the provider reads back what it has initialised,
    [ApiSessionCreate] initialises a session under the new identifier, and an
    [ApiSessionStart] whose [X-Session-Token] header carries that identifier,
    query-escaped or as it is, reads the session back: it returns a session
    whose [SessionID()] is the identifier, generates nothing and creates
    nothing. *)
Theorem token_round_trip manager r2 σ w w2 (b : list byte) (rest : rand.Reader) :
  lock σ = None ->
  Reader σ = (map Some b ++ rest)%list ->
  length b = 32%nat ->
  (forall sid st, exists s st',
     SessionRead (provider manager) sid (snd (SessionInit (provider manager) sid st))
       = ((Some s, None), st') /\ SessionID s = sid) ->
  let id := base64.EncodeToString b in
  (http.Header_Get (http.Header r2) "X-Session-Token" = id \/
   http.Header_Get (http.Header r2) "X-Session-Token" = url.QueryEscape id) ->
  let first := run (ApiSessionCreate manager) σ w in
  let σ1 := snd (fst first) in
  fst (fst first) = Returned (fst (fst (SessionInit (provider manager) id (store σ)))) /\
  store σ1 = snd (SessionInit (provider manager) id (store σ)) /\
  exists s st2,
    SessionRead (provider manager) id (store σ1) = ((Some s, None), st2) /\
    SessionID s = id /\
    run (ApiSessionStart manager r2) σ1 w2 =
      (Returned (Some s),
       mkWorld rest st2 None
         (trace σ1 ++
          [(0%nat, EvLog (log.Debugf "get session token is %s"
                            [http.Header_Get (http.Header r2) "X-Session-Token"]));
           (0%nat, EvLock);
           (0%nat, EvSessionRead id);
           (0%nat, EvUnlock)]),
       w2).
Proof.
  intros Hl Hr Hlen Hp id Hh. cbv zeta.
  rewrite ApiSessionCreate_run by exact Hl.
  cbn [fst snd store]. rewrite Hr, identifier_block, ReadFull_block by exact Hlen.
  fold id. cbn [snd].
  split; [reflexivity|]. split; [reflexivity|].
  destruct (Hp id (store σ)) as (s & st2 & Hread & Hid).
  exists s, st2. split; [exact Hread|]. split; [exact Hid|].
  assert (Hne : id <> "").
  { apply base64_facts.EncodeToString_nonempty. intros ->. discriminate Hlen. }
  assert (Hu : fst (url.QueryUnescape (http.Header_Get (http.Header r2) "X-Session-Token"))
               = id).
  { destruct Hh as [-> | ->].
    - unfold id. rewrite QueryUnescape_url_safe; [reflexivity|].
      apply base64_facts.EncodeToString_alphabet.
    - now rewrite url_facts.QueryUnescape_QueryEscape. }
  rewrite ApiSessionStart_resume; [|reflexivity | now rewrite Hu].
  cbn [Reader store trace]. rewrite Hu, Hread. reflexivity.
Qed.

(** The response after [SessionEnd] on a session. *)
(** X11.  The cookie that [SessionEnd] sets replaces the one that
    [SessionStart] has set for the same session.  When [cookieName] is a
    valid cookie name and [SessionStart] has created a session whose
    [SessionID()] is the identifier it was initialised with, the
    [Set-Cookie] line of a later [SessionEnd] on that session has the name,
    the value, the path and the [HttpOnly] attribute of the line of the
    [SessionStart], and [Max-Age=0]. *)
Theorem SessionEnd_overwrites_cookie manager r σ w σ2 w2 (s : Sess) :
  http.isCookieNameValid (cookieName manager) = true ->
  lock σ = None ->
  lock σ2 = None ->
  snd (http.Request_Cookie r (cookieName manager)) <> None ->
  fst (fst (SessionInit (provider manager) (identifier (Reader σ)) (store σ))) = Some s ->
  SessionID s = identifier (Reader σ) ->
  let value := url.QueryEscape (SessionID s) in
  run (SessionStart manager r) σ w =
    (Returned (Some s), snd (fst (run (SessionStart manager r) σ w)),
     (w ++ [(cookieName manager ++ "=" ++ value ++ "; Path=/"
               ++ http.MaxAge_attribute (int_of_int64 (maxlifetime manager))
               ++ "; HttpOnly")%string])%list) /\
  snd (run (SessionEnd manager (Some s)) σ2 w2) =
    (w2 ++ [(cookieName manager ++ "=" ++ value ++ "; Path=/"
               ++ "; Max-Age=0" ++ "; HttpOnly")%string])%list.
Proof.
  intros Hn Hl Hl2 Hc Hs Hid value. subst value.
  rewrite (SessionStart_create manager r σ w Hl (or_introl Hc)).
  rewrite (SessionEnd_run manager s σ2 w2 Hl2).
  cbn [fst snd]. rewrite !http_facts.SetCookie_session, Hn, Hs, Hid.
  split; reflexivity.
Qed.

(** [r.Cookie] gives a cookie or an error, never both, never neither. *)
Lemma Request_Cookie_shape r (name : string) :
  (exists c, http.Request_Cookie r name = (Some c, None)) \/
  http.Request_Cookie r name = (None, Some ErrNoCookie).
Proof.
  unfold http.Request_Cookie.
  destruct (String.eqb name ""); [now right|].
  destruct (find _ _) as [c|]; [left; eauto | now right].
Qed.

(** X14.  A lifecycle call that runs from a free mutex calls exactly one
    method of the provider, once: never an init and a read both, never two
    inits.  The calls that end a session and are given a nil one call
    none. *)
Theorem lifecycle_call_dispatches_once manager (c : Call Sess) σ w :
  lock σ = None ->
  exists added,
    trace (snd (fst (run (code (start_call manager c)) σ w))) = (trace σ ++ added)%list /\
    length (filter (fun e => dispatch e = true) added) =
      (if ends_nothing c then 0 else 1)%nat.
Proof.
  intros Hl. destruct c as [r|[s|]|r| |[s|]]; cbn [start_call code result ends_nothing].
  - destruct (Request_Cookie_shape r (cookieName manager)) as [[ck Hc]|Hc].
    + destruct (String.eqb_spec (http.Value ck) "") as [Hv|Hv].
      * rewrite SessionStart_create; [|exact Hl|right; eauto].
        eexists. split; [reflexivity|]. reflexivity.
      * rewrite (SessionStart_resume manager r σ w ck Hl Hc Hv).
        eexists. split; [reflexivity|]. reflexivity.
    + rewrite SessionStart_create; [|exact Hl|left; rewrite Hc; discriminate].
      eexists. split; [reflexivity|]. reflexivity.
  - unfold run, SessionEnd.
    destruct (SessionDestroy (provider manager) (SessionID s) (store σ)) as [err st'] eqn:Ed.
    exec_all. rewrite Ed. cbn [fst snd].
    destruct err as [e|]; exec_done; (eexists; split; [reflexivity|]; reflexivity).
  - unfold run, SessionEnd. exec_done. eexists. split; [reflexivity|]. reflexivity.
  - destruct (String.eqb_spec
                (fst (url.QueryUnescape (http.Header_Get (http.Header r) "X-Session-Token")))
                "") as [Ht|Ht].
    + rewrite (ApiSessionStart_create manager r σ w Ht).
      rewrite ApiSessionCreate_run by exact Hl. cbn [fst snd trace].
      rewrite <- app_assoc. eexists. split; [reflexivity|]. reflexivity.
    + rewrite ApiSessionStart_resume; [|exact Hl|exact Ht].
      eexists. split; [reflexivity|]. reflexivity.
  - rewrite ApiSessionCreate_run by exact Hl.
    eexists. split; [reflexivity|]. reflexivity.
  - unfold run, ApiSessionEnd.
    destruct (SessionDestroy (provider manager) (SessionID s) (store σ)) as [err st'] eqn:Ed.
    exec_all. rewrite Ed. cbn [fst snd].
    destruct err as [e|]; exec_done; (eexists; split; [reflexivity|]; reflexivity).
  - unfold run, ApiSessionEnd. exec_done. eexists. split; [reflexivity|]. reflexivity.
Qed.

End MoreProtocols.

Section Progress.
Context {Sess Store Val : Type} `{!Session Sess Store Val}.

Implicit Types (σ : World Store) (manager : Manager Sess Store).

(** What a step of call [i] does to the mutex: nothing, or [i] takes it, or
    it is freed. *)
Lemma step_call_lock (i : nat) (t t' : Thread Sess Store) σ σ' :
  step_call i t σ = Some (t', σ') ->
  lock σ' = lock σ \/ lock σ' = Some i \/ lock σ' = None.
Proof.
  destruct t as [A p w]. unfold step_call. cbn [code result resp].
  destruct p as [a|msg|k|k|n k|pr sid k|pr sid k|pr sid k|c k|e k]; try discriminate.
  - unfold do_lock. destruct (lock σ); [discriminate|]. intros [= <- <-]. right; left. reflexivity.
  - unfold do_unlock. destruct (lock σ); [|discriminate]. intros [= <- <-]. right; right. reflexivity.
  - unfold do_read. destruct (io.ReadFull n (Reader σ)). intros [= <- <-]. now left.
  - unfold do_call. destruct (SessionInit pr sid (store σ)). intros [= <- <-]. now left.
  - unfold do_call. destruct (SessionRead pr sid (store σ)). intros [= <- <-]. now left.
  - unfold do_call. destruct (SessionDestroy pr sid (store σ)). intros [= <- <-]. now left.
  - intros [= <- <-]. now left.
  - intros [= <- <-]. now left.
Qed.

(** The call that holds the mutex is one of the calls. *)
Lemma owner_in_pool (c c' : list (Thread Sess Store) * World Store) :
  lock (snd c) = None ->
  steps c c' ->
  forall i, lock (snd c') = Some i -> (i < length (fst c'))%nat.
Proof.
  intros Hl Hsteps. induction Hsteps as [c|c1 c2 c3 _ IH Hstep].
  - intros i Hi. congruence.
  - specialize (IH Hl). destruct Hstep as [i ts σ t t' σ' Hi Hstep].
    cbn [fst snd] in *. intros k Hk. rewrite length_insert.
    destruct (step_call_lock _ _ _ _ _ Hstep) as [E|[E|E]].
    + apply IH. congruence.
    + assert (k = i) by congruence. subst k. eapply lookup_lt_Some, Hi.
    + congruence.
Qed.

Lemma holding_can_step hang {A} (p : Prog Sess Store A) (i j : nat) w σ :
  holding p -> lock σ = Some j ->
  (exists t' σ', step_call_hang hang i (mkThread A p w) σ = Some (t', σ')) \/
  (exists e, provider_call p = Some e /\ hang e (store σ) = true).
Proof.
  intros Hp Hl. unfold step_call_hang, hangs_at, step_call. cbn [code result resp].
  destruct p as [a|msg|k|k|n k|pr sid k|pr sid k|pr sid k|c k|e k];
    cbn [holding] in Hp; try contradiction; cbn [provider_call].
  - left. unfold do_unlock. rewrite Hl. eauto.
  - left. destruct (do_read i n σ). eauto.
  - destruct (hang (EvSessionInit sid) (store σ)) eqn:Eh; [right; eexists; split; [reflexivity | exact Eh]|].
    left. destruct (do_call i _ _ σ). eauto.
  - destruct (hang (EvSessionRead sid) (store σ)) eqn:Eh; [right; eexists; split; [reflexivity | exact Eh]|].
    left. destruct (do_call i _ _ σ). eauto.
  - destruct (hang (EvSessionDestroy sid) (store σ)) eqn:Eh; [right; eexists; split; [reflexivity | exact Eh]|].
    left. destruct (do_call i _ _ σ). eauto.
  - left. eauto.
  - left. eauto.
Qed.

Lemma entering_can_step hang {A} (p : Prog Sess Store A) (i : nat) w σ :
  entering p -> lock σ = None ->
  exists t' σ', step_call_hang hang i (mkThread A p w) σ = Some (t', σ').
Proof.
  intros Hp Hl. unfold step_call_hang, hangs_at, step_call. cbn [code result resp].
  destruct p as [a|msg|k|k|n k|pr sid k|pr sid k|pr sid k|c k|e k];
    cbn [entering] in Hp; try contradiction; cbn [provider_call].
  - unfold do_lock. rewrite Hl. eauto.
  - eauto.
Qed.

(** A step that is made when provider calls may never return is a step
    of the plain semantics. *)
Lemma schedule_hang_steps hang sched (c c' : list (Thread Sess Store) * World Store) :
  schedule_hang hang sched c = Some c' -> steps c c'.
Proof.
  revert c. induction sched as [|i sched IH]; intros [ts σ] E;
    cbn [schedule_hang fst snd] in E.
  - injection E as <-. apply steps_refl.
  - destruct (ts !! i) as [t|] eqn:Hi; [|discriminate E].
    unfold step_call_hang in E.
    destruct (hangs_at hang (code t) σ); [discriminate E|].
    destruct (step_call i t σ) as [[t' σ']|] eqn:Hs; [|discriminate E].
    eapply steps_step_l; [eapply step_at; eauto | apply IH, E].
Qed.


End Progress.

(* ===================================================================== *)
(** * These theorems at work on the example provider *)
(* ===================================================================== *)

Lemma ApiSessionStart_reads_token_witness :
  lock (memory.stored "abc=") = None /\
  "abc=" <> "" /\
  http.Header_Get (http.Header (memory.with_token "abc%3D")) "X-Session-Token" =
    url.QueryEscape "abc=" /\
  run (ApiSessionStart memory.manager (memory.with_token "abc%3D")) (memory.stored "abc=") [] =
    (Returned (Some (memory.mkSession "abc=")),
     mkWorld [] [("abc=", [])] None
       [(0%nat, EvLog (log.Debugf "get session token is %s" ["abc%3D"]));
        (0%nat, EvLock);
        (0%nat, EvSessionRead "abc=");
        (0%nat, EvUnlock)],
     []).
Proof.
  assert (H1 : lock (memory.stored "abc=") = None) by reflexivity.
  assert (H2 : "abc=" <> "") by discriminate.
  assert (H3 : http.Header_Get (http.Header (memory.with_token "abc%3D")) "X-Session-Token" =
               url.QueryEscape "abc=") by (vm_compute; reflexivity).
  split; [exact H1|]. split; [exact H2|]. split; [exact H3|].
  rewrite (ApiSessionStart_reads_token memory.manager (memory.with_token "abc%3D")
             (memory.stored "abc=") [] "abc=" H1 H2 (or_intror H3)).
  vm_compute. reflexivity.
Defined.

Lemma ApiSessionEnd_destroys_witness :
  lock (memory.stored "abc=") = None /\
  run (ApiSessionEnd memory.manager (Some (memory.mkSession "abc="))) (memory.stored "abc=") [] =
    (Returned tt,
     mkWorld [] [] None
       [(0%nat, EvLock);
        (0%nat, EvLog (log.Debugf ("destroy session for id %s " ++ newline) ["abc="]));
        (0%nat, EvSessionDestroy "abc=");
        (0%nat, EvUnlock)],
     []).
Proof.
  split; [reflexivity|].
  rewrite (ApiSessionEnd_destroys memory.manager (memory.mkSession "abc=")
             (memory.stored "abc=") [] eq_refl).
  vm_compute. reflexivity.
Defined.

Lemma nil_session_panics_witness :
  lock (memory.stored "abc=") = None /\
  fst (fst (run (SessionEnd memory.manager None) (memory.stored "abc=") [])) =
    Panicked nil_dereference /\
  snd (fst (run (ApiSessionEnd memory.manager None) (memory.stored "abc=") [])) =
    mkWorld [] [("abc=", [])] None [(0%nat, EvLock); (0%nat, EvUnlock)].
Proof.
  destruct (nil_session_panics memory.manager (memory.stored "abc=") [] eq_refl)
    as [H1 H2].
  split; [reflexivity|]. split.
  - rewrite H1. reflexivity.
  - rewrite H2. reflexivity.
Defined.

(** ["memory"] is registered; a nil provider, a second ["memory"] and a
    new ["file"] follow. *)
Lemma RegisterAll_keeps_witness :
  RegisterAll [("redis", None); ("memory", Some memory.stubborn);
               ("file", Some memory.stubborn)]
              {[ "memory" := memory.provider ]} !! "memory" = Some memory.provider.
Proof.
  apply (RegisterAll_keeps
           [("redis", None); ("memory", Some memory.stubborn);
            ("file", Some memory.stubborn)]
           {[ "memory" := memory.provider ]}).
  apply lookup_singleton_eq.
Defined.

Lemma sessionId_delivers_witness :
  Reader (memory.world (memory.counting 40 0)) =
    (map Some (map byte_of_Z (map Z.of_nat (seq 0 32))) ++ memory.counting 8 32)%list /\
  length (map byte_of_Z (map Z.of_nat (seq 0 32))) = 32%nat /\
  run (sessionId memory.manager) (memory.world (memory.counting 40 0)) [] =
    (Returned "AAECAwQFBgcICQoLDA0ODxAREhMUFRYXGBkaGxwdHh8=",
     mkWorld (memory.counting 8 32) [] None [(0%nat, EvReadFull 32 None)], []).
Proof.
  assert (H1 : Reader (memory.world (memory.counting 40 0)) =
               (map Some (map byte_of_Z (map Z.of_nat (seq 0 32)))
                  ++ memory.counting 8 32)%list) by (vm_compute; reflexivity).
  assert (H2 : length (map byte_of_Z (map Z.of_nat (seq 0 32))) = 32%nat) by reflexivity.
  split; [exact H1|]. split; [exact H2|].
  destruct (sessionId_delivers memory.manager (memory.world (memory.counting 40 0)) []
              _ _ H1 H2) as [Hrun _].
  rewrite Hrun. vm_compute. reflexivity.
Defined.


Lemma lifecycle_call_waits_witness :
  lock (mkWorld (memory.counting 32 0) ([] : memory.Store) (Some 7%nat) []) = Some 7%nat /\
  exists logs,
    run (code (start_call memory.manager (CallApiSessionStart memory.no_cookie)))
        (mkWorld (memory.counting 32 0) [] (Some 7%nat) []) [] =
      (Blocked, mkWorld (memory.counting 32 0) [] (Some 7%nat) ([] ++ logs), []) /\
    Forall is_log logs.
Proof.
  split; [reflexivity|].
  apply (lifecycle_call_waits memory.manager (CallApiSessionStart memory.no_cookie) 7%nat
           (mkWorld (memory.counting 32 0) [] (Some 7%nat) []) [] eq_refl).
Defined.

Lemma token_round_trip_witness :
  lock (memory.world (memory.counting 32 0)) = None /\
  fst (fst (run (ApiSessionStart memory.manager
                   (memory.with_token "AAECAwQFBgcICQoLDA0ODxAREhMUFRYXGBkaGxwdHh8%3D"))
                (snd (fst (run (ApiSessionCreate memory.manager)
                               (memory.world (memory.counting 32 0)) []))) [])) =
    Returned (Some (memory.mkSession "AAECAwQFBgcICQoLDA0ODxAREhMUFRYXGBkaGxwdHh8=")) /\
  fst (fst (run (ApiSessionStart memory.manager
                   (memory.with_token "AAECAwQFBgcICQoLDA0ODxAREhMUFRYXGBkaGxwdHh8="))
                (snd (fst (run (ApiSessionCreate memory.manager)
                               (memory.world (memory.counting 32 0)) []))) [])) =
    Returned (Some (memory.mkSession "AAECAwQFBgcICQoLDA0ODxAREhMUFRYXGBkaGxwdHh8=")).
Proof.
  assert (H1 : lock (memory.world (memory.counting 32 0)) = None) by reflexivity.
  assert (H2 : Reader (memory.world (memory.counting 32 0)) =
               (map Some (map byte_of_Z (map Z.of_nat (seq 0 32))) ++ [])%list)
    by (vm_compute; reflexivity).
  assert (H3 : length (map byte_of_Z (map Z.of_nat (seq 0 32))) = 32%nat) by reflexivity.
  split; [exact H1|]. split.
  - destruct (token_round_trip memory.manager
                (memory.with_token "AAECAwQFBgcICQoLDA0ODxAREhMUFRYXGBkaGxwdHh8%3D")
                (memory.world (memory.counting 32 0)) [] [] _ _ H1 H2 H3
                memory_provider_reads_back)
      as (_ & _ & s & st2 & Hread & Hid & Hrun).
    + right. vm_compute. reflexivity.
    + rewrite Hrun. cbn [fst]. destruct s as [id]. cbn in Hid. rewrite Hid.
      vm_compute. reflexivity.
  - destruct (token_round_trip memory.manager
                (memory.with_token "AAECAwQFBgcICQoLDA0ODxAREhMUFRYXGBkaGxwdHh8=")
                (memory.world (memory.counting 32 0)) [] [] _ _ H1 H2 H3
                memory_provider_reads_back)
      as (_ & _ & s & st2 & Hread & Hid & Hrun).
    + left. vm_compute. reflexivity.
    + rewrite Hrun. cbn [fst]. destruct s as [id]. cbn in Hid. rewrite Hid.
      vm_compute. reflexivity.
Defined.

Lemma SessionEnd_overwrites_cookie_witness :
  snd (run (SessionStart memory.manager memory.no_cookie)
           (memory.world (memory.counting 32 0)) []) =
    ["sid=AAECAwQFBgcICQoLDA0ODxAREhMUFRYXGBkaGxwdHh8%3D; Path=/; Max-Age=3600; HttpOnly"] /\
  snd (run (SessionEnd memory.manager
              (Some (memory.mkSession "AAECAwQFBgcICQoLDA0ODxAREhMUFRYXGBkaGxwdHh8=")))
           (memory.stored "AAECAwQFBgcICQoLDA0ODxAREhMUFRYXGBkaGxwdHh8=") []) =
    ["sid=AAECAwQFBgcICQoLDA0ODxAREhMUFRYXGBkaGxwdHh8%3D; Path=/; Max-Age=0; HttpOnly"].
Proof.
  destruct (SessionEnd_overwrites_cookie memory.manager memory.no_cookie
              (memory.world (memory.counting 32 0)) []
              (memory.stored "AAECAwQFBgcICQoLDA0ODxAREhMUFRYXGBkaGxwdHh8=") []
              (memory.mkSession "AAECAwQFBgcICQoLDA0ODxAREhMUFRYXGBkaGxwdHh8="))
    as (Hstart & Hend).
  - vm_compute. reflexivity.
  - reflexivity.
  - reflexivity.
  - vm_compute. discriminate.
  - vm_compute. reflexivity.
  - vm_compute. reflexivity.
  - rewrite Hstart, Hend. split; vm_compute; reflexivity.
Defined.


Lemma lifecycle_call_dispatches_once_witness :
  lock (memory.world (memory.counting 32 0)) = None /\
  exists added,
    trace (snd (fst (run (code (start_call memory.manager
                                  (CallSessionStart memory.no_cookie)))
                         (memory.world (memory.counting 32 0)) []))) = ([] ++ added)%list /\
    length (filter (fun e => dispatch e = true) added) = 1%nat.
Proof.
  split; [reflexivity|].
  apply (lifecycle_call_dispatches_once memory.manager (CallSessionStart memory.no_cookie)
           (memory.world (memory.counting 32 0)) [] eq_refl).
Defined.
